(** * Chat-Review: the streaming chat client and the scored-interview core

    The development embeds [frontend/src/App.tsx] (the React component that
    drives one interview session: the dialogue list, the server-sent event
    consumer [streamModel], the chat composer and the task navigation) and,
    for the components whose code lives in the backend, the contracts that
    the specification gives for them (score validation, the chained
    tool-call loop, the retrieval index). *)

From Stdlib Require Import Strings.String Strings.Ascii.
From Stdlib Require Import List NArith ZArith QArith Bool Lia.
From Stdlib Require Import Permutation Sorted.
From Stdlib Require Import Init.Byte.
Import ListNotations.

Close Scope Q_scope.

Set Implicit Arguments.

(* ================================================================== *)
(** ** JavaScript strings *)
(* ================================================================== *)

(** A JavaScript string is a sequence of UTF-16 code units.  The functions
    below are the [String.prototype] methods that [App.tsx] calls. *)
Module JsString.

Definition char16 := N.
Definition jsstring := list char16.

(** ASCII literals of the source text. *)
Definition lit (s : String.string) : jsstring :=
  map Ascii.N_of_ascii (String.list_ascii_of_string s).

Arguments lit s%_string.

Definition LF : char16 := 10%N.

Fixpoint eqb (a b : jsstring) : bool :=
  match a, b with
  | [], [] => true
  | x :: a', y :: b' => N.eqb x y && eqb a' b'
  | _, _ => false
  end.

(** Truthiness of a string: only the empty string is falsy. *)
Definition truthy (s : jsstring) : bool :=
  match s with [] => false | _ :: _ => true end.

(** [WhiteSpace] and [LineTerminator] code units of ECMA-262, the set that
    [String.prototype.trim] strips. *)
Definition is_white_space (c : char16) : bool :=
  (N.leb 9 c && N.leb c 13)
  || N.eqb c 32 || N.eqb c 160 || N.eqb c 5760
  || (N.leb 8192 c && N.leb c 8202)
  || N.eqb c 8232 || N.eqb c 8233 || N.eqb c 8239 || N.eqb c 8287
  || N.eqb c 12288 || N.eqb c 65279.

Fixpoint trimStart (s : jsstring) : jsstring :=
  match s with
  | [] => []
  | c :: s' => if is_white_space c then trimStart s' else s
  end.

Definition trimEnd (s : jsstring) : jsstring := rev (trimStart (rev s)).

Definition trim (s : jsstring) : jsstring := trimEnd (trimStart s).

Fixpoint startsWith (p s : jsstring) : bool :=
  match p, s with
  | [], _ => true
  | x :: p', y :: s' => N.eqb x y && startsWith p' s'
  | _ :: _, [] => false
  end.

(** [s.slice(n)] for a non-negative [n]. *)
Definition slice (n : nat) (s : jsstring) : jsstring := skipn n s.

(** Prepend a code unit to the first piece of a split. *)
Definition cons_first (c : char16) (ps : list jsstring) : list jsstring :=
  match ps with
  | [] => [[c]]
  | p :: ps' => (c :: p) :: ps'
  end.

(** [s.split("\n\n")]: the pieces between the successive, non-overlapping
    occurrences of the blank-line delimiter, scanned from the left.  The
    result is never empty; its last piece is what follows the last
    delimiter. *)
Fixpoint split_blank (s : jsstring) : list jsstring :=
  match s with
  | [] => [[]]
  | a :: s1 =>
      match s1 with
      | [] => [[a]]
      | b :: s2 =>
          if N.eqb a LF && N.eqb b LF
          then [] :: split_blank s2
          else cons_first a (split_blank s1)
      end
  end.

(** [parts.join("\n\n")], the inverse view of a split. *)
Fixpoint join_blank (ps : list jsstring) : jsstring :=
  match ps with
  | [] => []
  | [p] => p
  | p :: ps' => p ++ LF :: LF :: join_blank ps'
  end.

(** Does the string hold a line feed at all? *)
Definition has_lf (s : jsstring) : bool := existsb (N.eqb LF) s.

(** Does the string hold the blank-line delimiter? *)
Fixpoint has_blank (s : jsstring) : bool :=
  match s with
  | [] => false
  | a :: s1 =>
      match s1 with
      | [] => false
      | b :: _ => (N.eqb a LF && N.eqb b LF) || has_blank s1
      end
  end.

End JsString.

Import JsString.

(* ================================================================== *)
(** ** The data of [App.tsx] *)
(* ================================================================== *)

(** [type Task]: the fields the handlers read. *)
Inductive TaskType := theory | coding | sql.

Record Task := {
  id : jsstring;
  type : TaskType;
  max_points : option Z
}.

(** [type Scenario]. *)
Record Scenario := {
  scenario_id : Z;
  role_id : Z;
  tasks : option (list Task)
}.

(** [type Message]. *)
Inductive Sender := candidate | model | system.

Record Message := {
  sender : Sender;
  text : jsstring;
  task_id : option jsstring
}.

Inductive View := landing | session | admin.

(** The [useState] cells of the [App] component. *)
Record AppState := {
  view : View;
  scenarios : list Scenario;
  selectedRole : option Z;
  selectedScenario : option Z;
  sessionId : option jsstring;
  messages : list Message;
  streamingReply : jsstring;
  streaming : bool;
  chatInput : jsstring;
  executionLog : option jsstring;
  loading : bool;
  status : option jsstring;
  currentTaskIndex : Z
}.

(** The state setters.  Every setter is applied to the current state, as
    React does with the updates a handler queues. *)
Definition setView (v : View) (st : AppState) : AppState :=
  {| view := v; scenarios := scenarios st; selectedRole := selectedRole st;
     selectedScenario := selectedScenario st; sessionId := sessionId st;
     messages := messages st; streamingReply := streamingReply st;
     streaming := streaming st; chatInput := chatInput st;
     executionLog := executionLog st; loading := loading st;
     status := status st; currentTaskIndex := currentTaskIndex st |}.

Definition setSelectedScenario (v : option Z) (st : AppState) : AppState :=
  {| view := view st; scenarios := scenarios st; selectedRole := selectedRole st;
     selectedScenario := v; sessionId := sessionId st;
     messages := messages st; streamingReply := streamingReply st;
     streaming := streaming st; chatInput := chatInput st;
     executionLog := executionLog st; loading := loading st;
     status := status st; currentTaskIndex := currentTaskIndex st |}.

Definition setSessionId (v : option jsstring) (st : AppState) : AppState :=
  {| view := view st; scenarios := scenarios st; selectedRole := selectedRole st;
     selectedScenario := selectedScenario st; sessionId := v;
     messages := messages st; streamingReply := streamingReply st;
     streaming := streaming st; chatInput := chatInput st;
     executionLog := executionLog st; loading := loading st;
     status := status st; currentTaskIndex := currentTaskIndex st |}.

Definition setMessages (f : list Message -> list Message) (st : AppState)
  : AppState :=
  {| view := view st; scenarios := scenarios st; selectedRole := selectedRole st;
     selectedScenario := selectedScenario st; sessionId := sessionId st;
     messages := f (messages st); streamingReply := streamingReply st;
     streaming := streaming st; chatInput := chatInput st;
     executionLog := executionLog st; loading := loading st;
     status := status st; currentTaskIndex := currentTaskIndex st |}.

Definition setStreamingReply (f : jsstring -> jsstring) (st : AppState)
  : AppState :=
  {| view := view st; scenarios := scenarios st; selectedRole := selectedRole st;
     selectedScenario := selectedScenario st; sessionId := sessionId st;
     messages := messages st; streamingReply := f (streamingReply st);
     streaming := streaming st; chatInput := chatInput st;
     executionLog := executionLog st; loading := loading st;
     status := status st; currentTaskIndex := currentTaskIndex st |}.

Definition setStreaming (v : bool) (st : AppState) : AppState :=
  {| view := view st; scenarios := scenarios st; selectedRole := selectedRole st;
     selectedScenario := selectedScenario st; sessionId := sessionId st;
     messages := messages st; streamingReply := streamingReply st;
     streaming := v; chatInput := chatInput st;
     executionLog := executionLog st; loading := loading st;
     status := status st; currentTaskIndex := currentTaskIndex st |}.

Definition setChatInput (v : jsstring) (st : AppState) : AppState :=
  {| view := view st; scenarios := scenarios st; selectedRole := selectedRole st;
     selectedScenario := selectedScenario st; sessionId := sessionId st;
     messages := messages st; streamingReply := streamingReply st;
     streaming := streaming st; chatInput := v;
     executionLog := executionLog st; loading := loading st;
     status := status st; currentTaskIndex := currentTaskIndex st |}.

Definition setExecutionLog (v : option jsstring) (st : AppState) : AppState :=
  {| view := view st; scenarios := scenarios st; selectedRole := selectedRole st;
     selectedScenario := selectedScenario st; sessionId := sessionId st;
     messages := messages st; streamingReply := streamingReply st;
     streaming := streaming st; chatInput := chatInput st;
     executionLog := v; loading := loading st;
     status := status st; currentTaskIndex := currentTaskIndex st |}.

Definition setLoading (v : bool) (st : AppState) : AppState :=
  {| view := view st; scenarios := scenarios st; selectedRole := selectedRole st;
     selectedScenario := selectedScenario st; sessionId := sessionId st;
     messages := messages st; streamingReply := streamingReply st;
     streaming := streaming st; chatInput := chatInput st;
     executionLog := executionLog st; loading := v;
     status := status st; currentTaskIndex := currentTaskIndex st |}.

Definition setStatus (v : option jsstring) (st : AppState) : AppState :=
  {| view := view st; scenarios := scenarios st; selectedRole := selectedRole st;
     selectedScenario := selectedScenario st; sessionId := sessionId st;
     messages := messages st; streamingReply := streamingReply st;
     streaming := streaming st; chatInput := chatInput st;
     executionLog := executionLog st; loading := loading st;
     status := v; currentTaskIndex := currentTaskIndex st |}.

Definition setCurrentTaskIndex (f : Z -> Z) (st : AppState) : AppState :=
  {| view := view st; scenarios := scenarios st; selectedRole := selectedRole st;
     selectedScenario := selectedScenario st; sessionId := sessionId st;
     messages := messages st; streamingReply := streamingReply st;
     streaming := streaming st; chatInput := chatInput st;
     executionLog := executionLog st; loading := loading st;
     status := status st; currentTaskIndex := f (currentTaskIndex st) |}.

Definition setSelectedRole (v : option Z) (st : AppState) : AppState :=
  {| view := view st; scenarios := scenarios st; selectedRole := v;
     selectedScenario := selectedScenario st; sessionId := sessionId st;
     messages := messages st; streamingReply := streamingReply st;
     streaming := streaming st; chatInput := chatInput st;
     executionLog := executionLog st; loading := loading st;
     status := status st; currentTaskIndex := currentTaskIndex st |}.

Definition setScenarios (f : list Scenario -> list Scenario) (st : AppState)
  : AppState :=
  {| view := view st; scenarios := f (scenarios st);
     selectedRole := selectedRole st;
     selectedScenario := selectedScenario st; sessionId := sessionId st;
     messages := messages st; streamingReply := streamingReply st;
     streaming := streaming st; chatInput := chatInput st;
     executionLog := executionLog st; loading := loading st;
     status := status st; currentTaskIndex := currentTaskIndex st |}.

(** *** Values that may be [undefined] *)

(** [!v] for a value that is a string, [null] or [undefined]. *)
Definition falsy (v : option jsstring) : bool :=
  match v with
  | None => true
  | Some s => negb (truthy s)
  end.

(** [!n] for a value that is a number or [null]. *)
Definition falsy_num (v : option Z) : bool :=
  match v with
  | None => true
  | Some n => Z.eqb n 0
  end.

(** String conversion of such a value, as string concatenation and template
    literals perform it. *)
Definition ToString (v : option jsstring) : jsstring :=
  match v with
  | Some s => s
  | None => lit "undefined"
  end.

(** [a || b]. *)
Definition or_else (a b : option jsstring) : option jsstring :=
  if falsy a then b else a.

(** *** Derived values of a render *)

(** [scenarios.find((s) => s.id === selectedScenario)?.tasks || []]. *)
Definition orderedTasks (st : AppState) : list Task :=
  match selectedScenario st with
  | None => []
  | Some sel =>
      match find (fun s => Z.eqb (scenario_id s) sel) (scenarios st) with
      | Some s => match tasks s with Some ts => ts | None => [] end
      | None => []
      end
  end.

(** [arr[i]] for an array and a number: [undefined] outside the array. *)
Definition index {A : Type} (l : list A) (i : Z) : option A :=
  if Z.ltb i 0 then None else nth_error l (Z.to_nat i).

(** [orderedTasks[currentTaskIndex] || null]. *)
Definition currentTask (st : AppState) : option Task :=
  index (orderedTasks st) (currentTaskIndex st).

(** *** Task navigation *)

Definition goNextTask (st : AppState) : AppState :=
  if Z.ltb (currentTaskIndex st) (Z.of_nat (length (orderedTasks st)) - 1)
  then setCurrentTaskIndex (fun i => i + 1)%Z st
  else st.

Definition goPrevTask (st : AppState) : AppState :=
  if Z.gtb (currentTaskIndex st) 0
  then setCurrentTaskIndex (fun i => i - 1)%Z st
  else st.

(** *** The dialogue list *)

(** [setMessages((prev) => [...prev, msg])]. *)
Definition pushMessage (msg : Message) (st : AppState) : AppState :=
  setMessages (fun prev => prev ++ [msg]) st.

(** *** The literals of the source *)

(** The Cyrillic literals are given by their code units. *)

(* "Ошибка модели: " *)
Definition model_error_prefix : jsstring :=
  [1054; 1096; 1080; 1073; 1082; 1072; 32; 1084; 1086; 1076; 1077; 1083;
   1080; 58; 32]%N.

(* "Стрим не удался: " *)
Definition stream_failed_prefix : jsstring :=
  [1057; 1090; 1088; 1080; 1084; 32; 1085; 1077; 32; 1091; 1076; 1072; 1083;
   1089; 1103; 58; 32]%N.

(* "Нет body у ответа" *)
Definition no_body_message : jsstring :=
  [1053; 1077; 1090; 32; 98; 111; 100; 121; 32; 1091; 32; 1086; 1090; 1074;
   1077; 1090; 1072]%N.

(* "Модель недоступна: " *)
Definition model_unavailable_prefix : jsstring :=
  [1052; 1086; 1076; 1077; 1083; 1100; 32; 1085; 1077; 1076; 1086; 1089;
   1090; 1091; 1087; 1085; 1072; 58; 32]%N.

(* "Сессия создана. Модель сейчас представится и обозначит план." *)
Definition session_created_text : jsstring :=
  [1057; 1077; 1089; 1089; 1080; 1103; 32; 1089; 1086; 1079; 1076; 1072;
   1085; 1072; 46; 32; 1052; 1086; 1076; 1077; 1083; 1100; 32; 1089; 1077;
   1081; 1095; 1072; 1089; 32; 1087; 1088; 1077; 1076; 1089; 1090; 1072;
   1074; 1080; 1090; 1089; 1103; 32; 1080; 32; 1086; 1073; 1086; 1079; 1085;
   1072; 1095; 1080; 1090; 32; 1087; 1083; 1072; 1085; 46]%N.

(* "Выберите роль и сценарий" *)
Definition choose_role_text : jsstring :=
  [1042; 1099; 1073; 1077; 1088; 1080; 1090; 1077; 32; 1088; 1086; 1083;
   1100; 32; 1080; 32; 1089; 1094; 1077; 1085; 1072; 1088; 1080; 1081]%N.

(* "Сессия активна" *)
Definition session_active_text : jsstring :=
  [1057; 1077; 1089; 1089; 1080; 1103; 32; 1072; 1082; 1090; 1080; 1074;
   1085; 1072]%N.

(* "Нет активной сессии или кода" *)
Definition no_session_or_code_text : jsstring :=
  [1053; 1077; 1090; 32; 1072; 1082; 1090; 1080; 1074; 1085; 1086; 1081; 32;
   1089; 1077; 1089; 1089; 1080; 1080; 32; 1080; 1083; 1080; 32; 1082; 1086;
   1076; 1072]%N.

(* "Ошибка отправки: " *)
Definition submit_error_prefix : jsstring :=
  [1054; 1096; 1080; 1073; 1082; 1072; 32; 1086; 1090; 1087; 1088; 1072;
   1074; 1082; 1080; 58; 32]%N.

(* "Нет активной сессии или SQL" *)
Definition no_session_or_sql_text : jsstring :=
  [1053; 1077; 1090; 32; 1072; 1082; 1090; 1080; 1074; 1085; 1086; 1081; 32;
   1089; 1077; 1089; 1089; 1080; 1080; 32; 1080; 1083; 1080; 32; 83; 81;
   76]%N.

(* "Ошибка SQL: " *)
Definition sql_error_prefix : jsstring :=
  [1054; 1096; 1080; 1073; 1082; 1072; 32; 83; 81; 76; 58; 32]%N.

(* "Роль сохранена" *)
Definition role_saved_text : jsstring :=
  [1056; 1086; 1083; 1100; 32; 1089; 1086; 1093; 1088; 1072; 1085; 1077;
   1085; 1072]%N.

(* "Сценарий сохранен" *)
Definition scenario_saved_text : jsstring :=
  [1057; 1094; 1077; 1085; 1072; 1088; 1080; 1081; 32; 1089; 1086; 1093;
   1088; 1072; 1085; 1077; 1085]%N.

(* "Ошибка сценария: " *)
Definition scenario_error_prefix : jsstring :=
  [1054; 1096; 1080; 1073; 1082; 1072; 32; 1089; 1094; 1077; 1085; 1072;
   1088; 1080; 1103; 58; 32]%N.

(** *** What a handler receives from the platform *)

(** One [await reader.read()]. *)
Inductive ReadResult :=
| Chunk (value : list byte)          (* { done: false, value } *)
| Done                               (* { done: true } *)
| ReadRejects (message : jsstring).  (* the promise rejects *)

(** The [fetch] of the chat stream: it rejects, or resolves to a response
    without a body, or to one whose body yields the given reads.  A body
    whose reads run out has been closed: the next read reports [done]. *)
Inductive StreamResponse :=
| FetchRejects (message : jsstring)
| NoBody
| Body (reads : list ReadResult).

(** [await fetchJson(...)]: rejected with an error message, or resolved. *)
Inductive FetchJson (A : Type) :=
| Rejects (message : jsstring)
| Resolves (value : A).

Arguments Rejects {A} message.
Arguments Resolves {A} value.

(** How a block of statements ends. *)
Inductive Completion :=
| Normal
| Throw (message : jsstring).

(** The three properties that [streamModel] reads from a parsed event.
    [None] is [undefined]; a [type] that is not a string compares unequal
    to every literal and is [None] as well.  [content] and [detail] are
    strings when present, as the stream protocol has them. *)
Record EventData := {
  ev_type : option jsstring;
  content : option jsstring;
  detail : option jsstring
}.

(** The value of [JSON.parse(raw)]: [null], or a value with properties. *)
Inductive JsonValue :=
| JsonNull
| JsonData (data : EventData).

Inductive ParseResult :=
| SyntaxError (message : jsstring)
| Parsed (v : JsonValue).

(** The local variables of one run of [streamModel] next to the component
    state: the text gathered so far. *)
Record Turn := {
  app : AppState;
  accumulated : jsstring
}.

(** [data.type === s]. *)
Definition type_is (data : EventData) (s : jsstring) : bool :=
  match ev_type data with
  | Some t => JsString.eqb t s
  | None => false
  end.

(** The three [if] statements on a parsed event (lines 296-308). *)
Definition on_event (data : EventData) (t : Turn) : Turn :=
  let t1 :=
    if type_is data (lit "token")
    then {| app := setStreamingReply
                     (fun prev => prev ++ ToString (content data)) (app t);
            accumulated := accumulated t ++ ToString (content data) |}
    else t in
  let t2 :=
    if type_is data (lit "error")
    then {| app := pushMessage
                     {| sender := system;
                        text := model_error_prefix
                                ++ ToString (or_else (detail data) (content data));
                        task_id := None |} (app t1);
            accumulated := accumulated t1 |}
    else t1 in
  if type_is data (lit "done")
  then match content data with
       | Some c =>
           if truthy c
           then {| app := setStreamingReply (fun _ => c) (app t2);
                   accumulated := c |}
           else t2
       | None => t2
       end
  else t2.

(** The consumer and the handlers, over the platform they run on. *)
Module Client.

Section Platform.

(** [TextDecoder.decode(value, { stream: true })] feeds the bytes one by one
    to the decoder of the encoding, which keeps its state from one call to
    the next and emits code units as code points complete. *)
Variable dstate : Type.
Variable decode_byte : dstate -> byte -> dstate * jsstring.
Variable decoder_init : dstate.

(** [JSON.parse], and the message of the [TypeError] that reading a property
    of [null] throws. *)
Variable JSON_parse : jsstring -> ParseResult.
Variable null_property_message : jsstring.

Definition decode_step (acc : dstate * jsstring) (b : byte)
  : dstate * jsstring :=
  let (d', out) := decode_byte (fst acc) b in (d', snd acc ++ out).

Definition decode (d : dstate) (value : list byte) : dstate * jsstring :=
  fold_left decode_step value (d, []).

(** The body of [for (const part of parts)] (lines 292-308). *)
Definition handle_part (part : jsstring) (t : Turn) : Turn * Completion :=
  if negb (startsWith (lit "data:") (trim part)) then (t, Normal)
  else
    let raw := trim (slice 5 (trim part)) in
    if negb (truthy raw) then (t, Normal)
    else
      match JSON_parse raw with
      | SyntaxError m => (t, Throw m)
      | Parsed JsonNull => (t, Throw null_property_message)
      | Parsed (JsonData data) => (on_event data t, Normal)
      end.

Fixpoint for_parts (parts : list jsstring) (t : Turn) : Turn * Completion :=
  match parts with
  | [] => (t, Normal)
  | part :: rest =>
      match handle_part part t with
      | (t', Normal) => for_parts rest t'
      | (t', Throw m) => (t', Throw m)
      end
  end.

(** The [while (true)] loop (lines 285-310) over the reads to come. *)
Fixpoint read_loop (reads : list ReadResult) (d : dstate) (buffer : jsstring)
  (t : Turn) : Turn * Completion :=
  match reads with
  | [] => (t, Normal)
  | Done :: _ => (t, Normal)
  | ReadRejects m :: _ => (t, Throw m)
  | Chunk value :: rest =>
      let (d', s) := decode d value in
      let parts := split_blank (buffer ++ s) in
      (* buffer = parts.pop() || "" *)
      match for_parts (removelast parts) t with
      | (t', Normal) => read_loop rest d' (last parts []) t'
      | (t', Throw m) => (t', Throw m)
      end
  end.

(** The first statements of [streamModel]: the turn is flagged in flight. *)
Definition stream_begin (st : AppState) : Turn :=
  {| app := setStreamingReply (fun _ => []) (setStreaming true st);
     accumulated := [] |}.

(** The [try] block. *)
Definition stream_try (resp : StreamResponse) (t : Turn) : Turn * Completion :=
  match resp with
  | FetchRejects m => (t, Throw m)
  | NoBody => (t, Throw no_body_message)
  | Body reads => read_loop reads decoder_init [] t
  end.

(** The [catch] block. *)
Definition stream_catch (r : Turn * Completion) : Turn :=
  match r with
  | (t, Normal) => t
  | (t, Throw m) =>
      {| app := pushMessage {| sender := system;
                               text := stream_failed_prefix ++ m;
                               task_id := None |} (app t);
         accumulated := accumulated t |}
  end.

(** The [finally] block. *)
Definition stream_finally (t : Turn) : AppState :=
  let st := setStreaming false (app t) in
  if truthy (accumulated t)
  then setStreamingReply (fun _ => [])
         (pushMessage {| sender := model; text := accumulated t;
                         task_id := None |} st)
  else st.

(** [streamModel].  [sid] is the [sessionId] of the render whose closure
    the call runs in. *)
Definition streamModel (sid : option jsstring) (resp : StreamResponse)
  (st : AppState) : AppState :=
  if falsy sid then st
  else stream_finally (stream_catch (stream_try resp (stream_begin st))).

(** [sendChatMessage]. *)
Definition sendChatMessage (post : FetchJson unit) (resp : StreamResponse)
  (st : AppState) : AppState :=
  if negb (truthy (trim (chatInput st))) || falsy (sessionId st) then st
  else
    let outgoing := {| sender := candidate; text := chatInput st;
                       task_id := option_map id (currentTask st) |} in
    let st1 := setChatInput [] (pushMessage outgoing st) in
    match post with
    | Resolves _ => streamModel (sessionId st) resp st1
    | Rejects m =>
        pushMessage {| sender := system; text := model_unavailable_prefix ++ m;
                       task_id := None |} st1
    end.

(** [startSession].  The POST resolves to the [id] of the new session.  The
    [streamModel] it awaits is the one of the same render, whose [sessionId]
    is the one from before [setSessionId]. *)
Definition startSession (post : FetchJson (option jsstring))
  (resp : StreamResponse) (st : AppState) : AppState :=
  if falsy_num (selectedRole st) || falsy_num (selectedScenario st)
  then setStatus (Some choose_role_text) st
  else
    let st1 := setLoading true st in
    let st2 :=
      match post with
      | Resolves new_id =>
          streamModel (sessionId st) resp
            (setCurrentTaskIndex (fun _ => 0%Z)
               (setView session
                  (setStatus (Some session_active_text)
                     (setMessages
                        (fun _ => [ {| sender := system;
                                       text := session_created_text;
                                       task_id := None |} ])
                        (setSessionId new_id st1)))))
      | Rejects m => setStatus (Some m) st1
      end in
    setLoading false st2.

(** [submitCode(currentTask)] and [submitSql(currentTask)]; the POST
    resolves to the text of [JSON.stringify(resp, null, 2)]. *)
Definition submitCode (post : FetchJson jsstring) (st : AppState) : AppState :=
  match currentTask st with
  | Some _ =>
      if falsy (sessionId st)
      then setExecutionLog (Some no_session_or_code_text) st
      else match post with
           | Resolves log => setExecutionLog (Some log) st
           | Rejects m => setExecutionLog (Some (submit_error_prefix ++ m)) st
           end
  | None => setExecutionLog (Some no_session_or_code_text) st
  end.

Definition submitSql (post : FetchJson jsstring) (st : AppState) : AppState :=
  match currentTask st with
  | Some _ =>
      if falsy (sessionId st)
      then setExecutionLog (Some no_session_or_sql_text) st
      else match post with
           | Resolves log => setExecutionLog (Some log) st
           | Rejects m => setExecutionLog (Some (sql_error_prefix ++ m)) st
           end
  | None => setExecutionLog (Some no_session_or_sql_text) st
  end.

(** *** The controls of the session view *)

(** [disabled={!sessionId || streaming}] on the send button. *)
Definition send_disabled (st : AppState) : bool :=
  falsy (sessionId st) || streaming st.

(** What the user can do within a session, each click with what the
    platform answers to it.  [startSession] is not among them: it opens
    another session and installs the dialogue of that session. *)
Inductive Action :=
| ClickSend (post : FetchJson unit) (resp : StreamResponse)
| TypeChat (value : jsstring)
| ClickNextTask
| ClickPrevTask
| ClickSubmitCode (post : FetchJson jsstring)
| ClickSubmitSql (post : FetchJson jsstring).

(** One operation, with its handler run to the end before the next
    operation: the operations of a session one at a time.  A click on a
    button that is disabled or not rendered reaches no handler.  [Page]
    below has the handlers overlapping: there [sendChatMessage] stops at its
    [await]s and other events come in between. *)
Definition step (a : Action) (st : AppState) : AppState :=
  match a with
  | ClickSend post resp =>
      if send_disabled st then st else sendChatMessage post resp st
  | TypeChat value => setChatInput value st
  | ClickNextTask =>
      if Z.geb (currentTaskIndex st) (Z.of_nat (length (orderedTasks st)) - 1)
      then st else goNextTask st
  | ClickPrevTask =>
      if Z.eqb (currentTaskIndex st) 0 then st else goPrevTask st
  | ClickSubmitCode post =>
      (* rendered for a coding task; disabled={!sessionId} *)
      match currentTask st with
      | Some {| type := coding |} =>
          if falsy (sessionId st) then st else submitCode post st
      | _ => st
      end
  | ClickSubmitSql post =>
      (* rendered for an SQL task; disabled={!sessionId} *)
      match currentTask st with
      | Some {| type := sql |} =>
          if falsy (sessionId st) then st else submitSql post st
      | _ => st
      end
  end.

Definition run (actions : list Action) (st : AppState) : AppState :=
  fold_left (fun s a => step a s) actions st.

End Platform.

End Client.

(** The whole page: the three views, their controls and the effect that
    picks a scenario for a role. *)
Module Ui.

(** The effect of lines 150-155: with a role and no scenario selected, the
    first scenario of the role is selected, if there is one.  It reads the
    role, the scenario and the scenario list, and runs when one of them has
    changed. *)
Definition roleScenarioEffect (st : AppState) : AppState :=
  if negb (falsy_num (selectedRole st)) && falsy_num (selectedScenario st)
  then match selectedRole st with
       | Some r =>
           match find (fun s => Z.eqb (role_id s) r) (scenarios st) with
           | Some first => setSelectedScenario (Some (scenario_id first)) st
           | None => st
           end
       | None => st
       end
  else st.

(** The scenario cards of the landing view (lines 524-526):
    [scenarios.filter((s) => !selectedRole || s.role_id === selectedRole)]. *)
Definition shownScenarios (st : AppState) : list Scenario :=
  filter (fun s => falsy_num (selectedRole st)
                   || match selectedRole st with
                      | Some r => Z.eqb (role_id s) r
                      | None => false
                      end)
    (scenarios st).

(** The click on a role card (lines 506-509). *)
Definition clickRole (role : Z) (st : AppState) : AppState :=
  setSelectedScenario None (setSelectedRole (Some role) st).

(** The identifiers of a scenario list are distinct. *)
Fixpoint distinct (ids : list Z) : bool :=
  match ids with
  | [] => true
  | i :: rest => negb (existsb (Z.eqb i) rest) && distinct rest
  end.

(** The scenario cards of the landing view (lines 524-530) are children
    keyed by [scenario.id], each with the handler
    [() => setSelectedScenario(scenario.id)].  While the identifiers of the
    list are distinct the cards on screen are those of the scenarios shown.
    With a repeated identifier React does not keep the cards in step with
    the list, and a card of an earlier render can stay on screen: every card
    ever rendered is the card of a scenario of the list, which only grows,
    so the cards that can be on screen then are taken to be those of the
    whole list. *)
Definition cardOnScreen (card : Z) (st : AppState) : bool :=
  existsb (fun s => Z.eqb (scenario_id s) card)
    (if distinct (map scenario_id (scenarios st))
     then shownScenarios st
     else scenarios st).

(** The click on the scenario card of identifier [card] (line 530). *)
Definition clickScenario (card : Z) (st : AppState) : AppState :=
  if cardOnScreen card st then setSelectedScenario (Some card) st else st.

(** [setView(view === "admin" ? "landing" : "admin")] (line 483). *)
Definition toggleAdmin (st : AppState) : AppState :=
  setView (match view st with admin => landing | _ => admin end) st.

(** [submitRole], as far as the cells of [AppState] go: the role list and
    the draft of the form are cells of their own. *)
Definition submitRole (post : FetchJson unit) (st : AppState) : AppState :=
  match post with
  | Resolves _ => setStatus (Some role_saved_text) st
  | Rejects m => setStatus (Some m) st
  end.

(** [submitScenario].  [Rejects] stands for every exception of the [try]
    block, the one of [JSON.parse(adminScenarioDraft.tasks)] included. *)
Definition submitScenario (post : FetchJson Scenario) (st : AppState)
  : AppState :=
  match post with
  | Resolves resp =>
      setStatus (Some scenario_saved_text)
        (setScenarios (fun prev => prev ++ [resp]) st)
  | Rejects m => setStatus (Some (scenario_error_prefix ++ m)) st
  end.

Definition view_is (v : View) (st : AppState) : bool :=
  match v, view st with
  | landing, landing | session, session | admin, admin => true
  | _, _ => false
  end.

End Ui.

(** The page with its handlers under way.  The handlers of [App.tsx] are
    [async] functions: a handler runs up to its next [await] and goes on
    when the promise has settled, and the user can click in between.  The
    values a handler reads from its closure are those of the render in which
    it was started; its state updates apply to the cells as they are when it
    makes them.  The page is taken from the point where the effect of lines
    132-148 has loaded the roles and the scenarios. *)
Module Page.

Section Platform.

Variable dstate : Type.
Variable decode_byte : dstate -> byte -> dstate * jsstring.
Variable decoder_init : dstate.
Variable JSON_parse : jsstring -> ParseResult.
Variable null_property_message : jsstring.

(** The handler that awaits a [streamModel]. *)
Inductive Caller := BySendChatMessage | ByStartSession.

(** A handler at an [await], with what the platform will answer.  [sid] is
    the [sessionId] of the render the handler was started in, [acc] the
    local [accumulated], [buffer] the local [buffer] and [d] the state of
    the local [decoder]. *)
Inductive Pending :=
| SendPost (sid : option jsstring) (post : FetchJson unit)
    (resp : StreamResponse)                  (* line 360 *)
| StartPost (sid : option jsstring) (post : FetchJson (option jsstring))
    (resp : StreamResponse)                  (* line 329 *)
| StreamFetch (caller : Caller) (resp : StreamResponse)   (* line 280 *)
| StreamRead (caller : Caller) (reads : list ReadResult) (d : dstate)
    (buffer acc : jsstring)                  (* line 286 *)
| CodePost (post : FetchJson jsstring)       (* line 376 *)
| SqlPost (post : FetchJson jsstring)        (* line 396 *)
| RolePost (post : FetchJson unit)           (* line 411 *)
| ScenarioPost (post : FetchJson Scenario).  (* line 434 *)

(** A stream that has been requested and has not ended. *)
Definition in_flight (h : Pending) : bool :=
  match h with
  | StreamFetch _ _ | StreamRead _ _ _ _ _ => true
  | _ => false
  end.

(** A handler of the session: every handler but a [startSession], which
    opens another session. *)
Definition within_session (h : Pending) : bool :=
  match h with
  | StartPost _ _ _ => false
  | _ => true
  end.

(** What the caller does when the [streamModel] it awaits returns:
    [startSession] goes on to its [finally] block. *)
Definition stream_return (caller : Caller) (st : AppState) : AppState :=
  match caller with
  | BySendChatMessage => st
  | ByStartSession => setLoading false st
  end.

(** The [catch] and [finally] blocks of [streamModel], and the return. *)
Definition stream_end (caller : Caller) (r : Turn * Completion)
  : AppState * option Pending :=
  (stream_return caller (Client.stream_finally (Client.stream_catch r)), None).

(** [streamModel] from its call to the [await fetch] (lines 275-280). *)
Definition stream_start (caller : Caller) (sid : option jsstring)
  (resp : StreamResponse) (st : AppState) : AppState * option Pending :=
  if falsy sid then (stream_return caller st, None)
  else (app (Client.stream_begin st), Some (StreamFetch caller resp)).

(** One turn of the [while (true)] loop (lines 285-310): the read settles,
    and the loop runs to the next read or to the end of [streamModel]. *)
Definition stream_read (caller : Caller) (reads : list ReadResult)
  (d : dstate) (buffer acc : jsstring) (st : AppState)
  : AppState * option Pending :=
  let t := {| app := st; accumulated := acc |} in
  match reads with
  | [] => stream_end caller (t, Normal)
  | Done :: _ => stream_end caller (t, Normal)
  | ReadRejects m :: _ => stream_end caller (t, Throw m)
  | Chunk value :: rest =>
      let (d', s) := Client.decode decode_byte d value in
      let parts := split_blank (buffer ++ s) in
      match Client.for_parts JSON_parse null_property_message
              (removelast parts) t with
      | (t', Normal) =>
          (app t',
           Some (StreamRead caller rest d' (last parts []) (accumulated t')))
      | (t', Throw m) => stream_end caller (t', Throw m)
      end
  end.

(** The handler [h] goes on from its [await] to the next one, or to its
    end. *)
Definition resume (h : Pending) (st : AppState) : AppState * option Pending :=
  match h with
  | SendPost sid post resp =>
      match post with
      | Resolves _ => stream_start BySendChatMessage sid resp st
      | Rejects m =>
          (pushMessage {| sender := system;
                          text := model_unavailable_prefix ++ m;
                          task_id := None |} st, None)
      end
  | StartPost sid post resp =>
      match post with
      | Resolves new_id =>
          stream_start ByStartSession sid resp
            (setCurrentTaskIndex (fun _ => 0%Z)
               (setView session
                  (setStatus (Some session_active_text)
                     (setMessages
                        (fun _ => [ {| sender := system;
                                       text := session_created_text;
                                       task_id := None |} ])
                        (setSessionId new_id st)))))
      | Rejects m => (setLoading false (setStatus (Some m) st), None)
      end
  | StreamFetch caller resp =>
      let t := {| app := st; accumulated := [] |} in
      match resp with
      | FetchRejects m => stream_end caller (t, Throw m)
      | NoBody => stream_end caller (t, Throw no_body_message)
      | Body reads => (st, Some (StreamRead caller reads decoder_init [] []))
      end
  | StreamRead caller reads d buffer acc =>
      stream_read caller reads d buffer acc st
  | CodePost post =>
      (setExecutionLog
         (Some match post with
               | Resolves log => log
               | Rejects m => submit_error_prefix ++ m
               end) st, None)
  | SqlPost post =>
      (setExecutionLog
         (Some match post with
               | Resolves log => log
               | Rejects m => sql_error_prefix ++ m
               end) st, None)
  | RolePost post => (Ui.submitRole post st, None)
  | ScenarioPost post => (Ui.submitScenario post st, None)
  end.

(** The handler runs on without another event in between, for at most
    [fuel] promises. *)
Fixpoint settle (fuel : nat) (h : Pending) (st : AppState) : AppState :=
  match fuel with
  | O => st
  | S fuel' =>
      match resume h st with
      | (st', Some h') => settle fuel' h' st'
      | (st', None) => st'
      end
  end.

(** The promises that a stream takes to its end at most. *)
Definition promises (resp : StreamResponse) : nat :=
  match resp with
  | Body reads => 3 + length reads
  | _ => 3
  end.

(** *** The handlers up to their first [await] *)

(** [sendChatMessage] up to its POST (lines 355-360). *)
Definition sendChatMessage (post : FetchJson unit) (resp : StreamResponse)
  (st : AppState) : AppState * option Pending :=
  if negb (truthy (trim (chatInput st))) || falsy (sessionId st)
  then (st, None)
  else
    let outgoing := {| sender := candidate; text := chatInput st;
                       task_id := option_map id (currentTask st) |} in
    (setChatInput [] (pushMessage outgoing st),
     Some (SendPost (sessionId st) post resp)).

(** [startSession] up to its POST (lines 323-329). *)
Definition startSession (post : FetchJson (option jsstring))
  (resp : StreamResponse) (st : AppState) : AppState * option Pending :=
  if falsy_num (selectedRole st) || falsy_num (selectedScenario st)
  then (setStatus (Some choose_role_text) st, None)
  else (setLoading true st, Some (StartPost (sessionId st) post resp)).

(** [submitCode(currentTask)] and [submitSql(currentTask)] up to their
    POST. *)
Definition submitCode (post : FetchJson jsstring) (st : AppState)
  : AppState * option Pending :=
  match currentTask st with
  | Some _ =>
      if falsy (sessionId st)
      then (setExecutionLog (Some no_session_or_code_text) st, None)
      else (st, Some (CodePost post))
  | None => (setExecutionLog (Some no_session_or_code_text) st, None)
  end.

Definition submitSql (post : FetchJson jsstring) (st : AppState)
  : AppState * option Pending :=
  match currentTask st with
  | Some _ =>
      if falsy (sessionId st)
      then (setExecutionLog (Some no_session_or_sql_text) st, None)
      else (st, Some (SqlPost post))
  | None => (setExecutionLog (Some no_session_or_sql_text) st, None)
  end.

(** [submitScenario] up to its POST: [JSON.parse(adminScenarioDraft.tasks)]
    throws with [parse_error] when the draft does not parse, and the
    [catch] block runs at once. *)
Definition submitScenario (parse_error : option jsstring)
  (post : FetchJson Scenario) (st : AppState) : AppState * option Pending :=
  match parse_error with
  | Some m => (setStatus (Some (scenario_error_prefix ++ m)) st, None)
  | None => (st, Some (ScenarioPost post))
  end.

(** *** The controls *)

(** The controls of the page, each with what the platform will answer to
    the handler it starts. *)
Inductive Control :=
| InSession (a : Client.Action)
| ClickStart (post : FetchJson (option jsstring)) (resp : StreamResponse)
| ToggleAdmin
| ClickRole (role : Z)
| ClickScenario (card : Z)
| SubmitRole (post : FetchJson unit)
| SubmitScenario (parse_error : option jsstring) (post : FetchJson Scenario).

(** The handler of a control, up to its first [await].  A control reaches
    its handler in the view that renders it and when it is not disabled:
    the controls of a session in the session view, the role and scenario
    cards in the landing view, the forms in the admin view, the start
    buttons outside the admin view and while [loading] is off, the admin
    toggle everywhere. *)
Definition click (c : Control) (st : AppState) : AppState * option Pending :=
  match c with
  | InSession a =>
      if Ui.view_is session st
      then match a with
           | Client.ClickSend post resp =>
               if Client.send_disabled st then (st, None)
               else sendChatMessage post resp st
           | Client.ClickSubmitCode post =>
               match currentTask st with
               | Some {| type := coding |} =>
                   if falsy (sessionId st) then (st, None)
                   else submitCode post st
               | _ => (st, None)
               end
           | Client.ClickSubmitSql post =>
               match currentTask st with
               | Some {| type := sql |} =>
                   if falsy (sessionId st) then (st, None)
                   else submitSql post st
               | _ => (st, None)
               end
           | _ =>
               (Client.step decode_byte decoder_init JSON_parse
                  null_property_message a st, None)
           end
      else (st, None)
  | ClickStart post resp =>
      if Ui.view_is admin st || loading st then (st, None)
      else startSession post resp st
  | ToggleAdmin => (Ui.toggleAdmin st, None)
  | ClickRole role =>
      if Ui.view_is landing st then (Ui.clickRole role st, None)
      else (st, None)
  | ClickScenario card =>
      if Ui.view_is landing st then (Ui.clickScenario card st, None)
      else (st, None)
  | SubmitRole post =>
      if Ui.view_is admin st then (st, Some (RolePost post)) else (st, None)
  | SubmitScenario parse_error post =>
      if Ui.view_is admin st then submitScenario parse_error post st
      else (st, None)
  end.

(** *** The page *)

Record Page := {
  cells : AppState;
  pending : list Pending
}.

(** What happens on the page: the user operates a control, or the promise
    that the [k]-th handler under way awaits settles. *)
Inductive Event :=
| Click (c : Control)
| Settle (k : nat).

(** The click that starts a [startSession]. *)
Definition opens_session (e : Event) : bool :=
  match e with
  | Click (ClickStart _ _) => true
  | _ => false
  end.

Definition to_list (h : option Pending) : list Pending :=
  match h with
  | Some h' => [h']
  | None => []
  end.

(** An event, and the effect of lines 150-155 after the render it causes. *)
Definition step (e : Event) (p : Page) : Page :=
  match e with
  | Click c =>
      let (st, started) := click c (cells p) in
      {| cells := Ui.roleScenarioEffect st;
         pending := pending p ++ to_list started |}
  | Settle k =>
      match nth_error (pending p) k with
      | Some h =>
          let (st, next) := resume h (cells p) in
          {| cells := Ui.roleScenarioEffect st;
             pending := firstn k (pending p) ++ to_list next
                        ++ skipn (S k) (pending p) |}
      | None => p
      end
  end.

Definition run (events : list Event) (p : Page) : Page :=
  fold_left (fun p e => step e p) events p.

(** The streams in flight. *)
Definition streams_in_flight (p : Page) : nat :=
  length (filter in_flight (pending p)).

End Platform.

Arguments SendPost {dstate} sid post resp.
Arguments StartPost {dstate} sid post resp.
Arguments StreamFetch {dstate} caller resp.
Arguments CodePost {dstate} post.
Arguments SqlPost {dstate} post.
Arguments RolePost {dstate} post.
Arguments ScenarioPost {dstate} post.
Arguments stream_end {dstate} caller r.
Arguments stream_start {dstate} caller sid resp st.
Arguments sendChatMessage {dstate} post resp st.
Arguments startSession {dstate} post resp st.
Arguments submitCode {dstate} post st.
Arguments submitSql {dstate} post st.
Arguments submitScenario {dstate} parse_error post st.

End Page.

(* ================================================================== *)
(** ** The backend core, from its specification *)
(* ================================================================== *)

(** Modelled from the spec: the error taxonomy of the core (section 7);
    the backend that raises these errors is not part of the sources. *)
Inductive Error :=
| NotFound
| InvalidState
| InvalidScore
| UnsupportedTool
| UpstreamUnavailable
| Timeout.

Module ScoreValidator.

(** Modelled from the spec: the task as the Score Validator reads it, an
    identifier and [max_points]; the validator itself is backend code. *)
Record Task := {
  task_id : string;
  max_points : Z
}.

(** Modelled from the spec: the Score Validator of section 4.4.  It fails
    with [InvalidScore] when [proposedPoints < 0] or
    [proposedPoints > task.max_points] and returns the value otherwise. *)
Definition validate (task : Task) (proposedPoints : Z) : Error + Z :=
  if (proposedPoints <? 0)%Z || (proposedPoints >? max_points task)%Z
  then inl InvalidScore
  else inr proposedPoints.

(** Modelled from the spec: a Score record of section 3; the maximum is
    copied from the task when the score is recorded. *)
Record Score := {
  score_task : string;
  awarded : Z;
  max : Z
}.

(** Modelled from the spec: the Score list of a session. *)
Record Session := {
  scores : list Score
}.

(** Modelled from the spec: [recordScore] of section 4.1, for the task that
    [taskId] names.  It delegates to the validator, fails with
    [InvalidScore] when validation fails and appends to the Score list on
    success; a failure leaves the session as it was. *)
Definition recordScore (s : Session) (task : Task) (points : Z)
  : Error + (Session * Score) :=
  match validate task points with
  | inl e => inl e
  | inr p =>
      let sc := {| score_task := task_id task; awarded := p;
                   max := max_points task |} in
      inr ({| scores := scores s ++ [sc] |}, sc)
  end.

(** Modelled from the spec: a session after a series of [recordScore]
    requests; a request that fails leaves the session as it was. *)
Fixpoint recordScores (s : Session) (reqs : list (Task * Z)) : Session :=
  match reqs with
  | [] => s
  | (task, points) :: rest =>
      match recordScore s task points with
      | inl _ => recordScores s rest
      | inr (s', _) => recordScores s' rest
      end
  end.

(** The invariant of a Score record: [0 <= awarded <= max]. *)
Definition in_range (sc : Score) : Prop :=
  (0 <= awarded sc <= max sc)%Z.

End ScoreValidator.

Module StreamingConsumer.

(** Modelled from the spec: the events of a model turn (section 4.2); the
    consumer that produces them is backend code. *)
Inductive TokenEvent :=
| token (content : string)
| tool_call (name : string) (arguments : string)
| error (detail : string)
| done (content : string).

(** Modelled from the spec: what one completion request comes to, after the
    extraction routine of section 9.  Tokens are emitted as they are
    generated; the request then ends as a plain answer, which the tokens
    make up, or with a tool call detected in the stream, or with an
    upstream failure. *)
Inductive Completion :=
| PlainText (tokens : list string)
| ToolCall (tokens : list string) (name : string) (arguments : string)
| Failure (tokens : list string) (detail : string).

(** Modelled from the spec: the dialogue that seeds a completion request,
    the texts so far. *)
Definition Dialogue := list string.

Definition is_tool_call (e : TokenEvent) : bool :=
  match e with tool_call _ _ => true | _ => false end.

Definition is_error (e : TokenEvent) : bool :=
  match e with error _ => true | _ => false end.

Definition is_terminal (e : TokenEvent) : bool :=
  match e with error _ | done _ => true | _ => false end.

(** Modelled from the spec: the detail of the [error] event that ends a
    turn which exceeds the cap; the spec fixes no text for it. *)
Definition cap_exceeded : string := "tool call limit exceeded".

(** The number of tool calls among the events of a turn. *)
Definition tool_calls (events : list TokenEvent) : nat :=
  length (filter is_tool_call events).

Section Turn.

(** The language model and the Tool Dispatcher, the two collaborators of
    the consumer.  The dispatcher always resolves to a text: an unsupported
    tool or a failed search is turned into a result for the model. *)
Variable complete : Dialogue -> Completion.
Variable dispatch : string -> string -> string.

(** Modelled from the spec: the chained tool-call loop of section 4.2.
    [budget] is the number of tool calls the turn may still make.  The
    tokens of a completion are emitted in order.  A plain answer ends the
    turn with [done], which carries its whole text and nothing of the
    completions before it; a tool call within the budget is emitted,
    dispatched and followed by a new completion request seeded with the
    dialogue plus the tool result; a tool call beyond the budget and an
    upstream failure end the turn with [error]. *)
Fixpoint turn (budget : nat) (dialogue : Dialogue) : list TokenEvent :=
  match complete dialogue with
  | PlainText tokens => map token tokens ++ [done (String.concat "" tokens)]
  | Failure tokens detail => map token tokens ++ [error detail]
  | ToolCall tokens name arguments =>
      match budget with
      | O => map token tokens ++ [error cap_exceeded]
      | S budget' =>
          map token tokens
          ++ tool_call name arguments
             :: turn budget' (dialogue ++ [dispatch name arguments])
      end
  end.

(** Modelled from the spec: a model turn under the configured cap. *)
Definition modelTurn (cap : nat) (dialogue : Dialogue) : list TokenEvent :=
  turn cap dialogue.

End Turn.

End StreamingConsumer.

Module RetrievalIndex.


(** Modelled from the spec: the token-frequency vector of a token list,
    read at one token. *)
Definition frequency (v : list string) (t : string) : Z :=
  Z.of_nat (count_occ string_dec v t).













End RetrievalIndex.

(* ================================================================== *)
(** ** Event streams *)
(* ================================================================== *)

(** The text of an event stream: every frame is followed by a blank line. *)
Definition sse_text (frames : list jsstring) : jsstring :=
  flat_map (fun f => f ++ [LF; LF]) frames.

(** A frame of a well-formed stream holds no blank line and does not end in
    a line feed: the blank line that ends it is the first one after its
    start. *)
Definition whole_frame (f : jsstring) : bool :=
  negb (has_blank f) && negb (N.eqb (last f 0%N) LF).

(** The frames that [streamModel] goes on to parse. *)
Definition data_frame (part : jsstring) : bool :=
  startsWith (lit "data:") (trim part).

(** The text handed to [JSON.parse] for a frame, if any. *)
Definition payload (part : jsstring) : option jsstring :=
  if data_frame part
  then let raw := trim (slice 5 (trim part)) in
       if truthy raw then Some raw else None
  else None.

Definition payloads (frames : list jsstring) : list jsstring :=
  flat_map (fun f => match payload f with Some raw => [raw] | None => [] end)
    frames.

(** The frames of a stream parse to the given events, one by one. *)
Definition parse_to (JSON_parse : jsstring -> ParseResult)
  (frames : list jsstring) (events : list EventData) : Prop :=
  map JSON_parse (payloads frames)
  = map (fun e => Parsed (JsonData e)) events.

(** The system message that an [error] event is shown as. *)
Definition error_message (e : EventData) : Message :=
  {| sender := system;
     text := model_error_prefix ++ ToString (or_else (detail e) (content e));
     task_id := None |}.

Definition error_messages (events : list EventData) : list Message :=
  map error_message (filter (fun e => type_is e (lit "error")) events).

(** The system message that a failed stream is shown as. *)
Definition failure_message (m : jsstring) : Message :=
  {| sender := system; text := stream_failed_prefix ++ m; task_id := None |}.

(** The model message that the gathered text is stored as. *)
Definition model_message (t : jsstring) : Message :=
  {| sender := model; text := t; task_id := None |}.

(** The events of a stream, handled in order. *)
Definition on_events (events : list EventData) (t : Turn) : Turn :=
  fold_left (fun t e => on_event e t) events t.

(** [st'] differs from [st] by messages appended to the dialogue and by the
    text of the reply in progress, and by nothing else. *)
Definition chat_only (st st' : AppState) : Prop :=
  view st' = view st /\ scenarios st' = scenarios st
  /\ selectedRole st' = selectedRole st
  /\ selectedScenario st' = selectedScenario st
  /\ sessionId st' = sessionId st /\ streaming st' = streaming st
  /\ chatInput st' = chatInput st /\ executionLog st' = executionLog st
  /\ loading st' = loading st /\ status st' = status st
  /\ currentTaskIndex st' = currentTaskIndex st
  /\ exists added, messages st' = messages st ++ added.

(** [st'] differs from [st] by messages appended to the dialogue, by the
    text of the reply in progress and by the in-flight flag, and by nothing
    else. *)
Definition turn_only (st st' : AppState) : Prop :=
  view st' = view st /\ scenarios st' = scenarios st
  /\ selectedRole st' = selectedRole st
  /\ selectedScenario st' = selectedScenario st
  /\ sessionId st' = sessionId st
  /\ chatInput st' = chatInput st /\ executionLog st' = executionLog st
  /\ loading st' = loading st /\ status st' = status st
  /\ currentTaskIndex st' = currentTaskIndex st
  /\ exists added, messages st' = messages st ++ added.

(** The current-task index points into the task list, or is 0 when the
    list is empty. *)
Definition index_in_bounds (st : AppState) : Prop :=
  (0 <= currentTaskIndex st
   <= Z.max 0 (Z.of_nat (length (orderedTasks st)) - 1))%Z.


(** The greeting that opens the dialogue of a session. *)
Definition greeting : Message :=
  {| sender := system; text := session_created_text; task_id := None |}.

(** The selected scenario, when a role is selected with it, is the
    identifier of a scenario of that role. *)
Definition selection_consistent (st : AppState) : Prop :=
  forall (r sel : Z),
    selectedRole st = Some r -> r <> 0%Z ->
    selectedScenario st = Some sel ->
    exists s, In s (scenarios st)
              /\ scenario_id s = sel /\ role_id s = r.

(** Handling the frame [part] throws an exception with message [m]: the
    payload does not parse, or it parses to [null], whose [type] cannot be
    read. *)
Definition throws (JSON_parse : jsstring -> ParseResult)
  (null_property_message : jsstring) (part m : jsstring) : Prop :=
  exists raw, payload part = Some raw
    /\ (JSON_parse raw = SyntaxError m
        \/ (JSON_parse raw = Parsed JsonNull /\ m = null_property_message)).

(** The text gathered after one more event: a [token] appends its content,
    a [done] with text replaces the text, every other event leaves it. *)
Definition text_after (acc : jsstring) (e : EventData) : jsstring :=
  if type_is e (lit "token") then acc ++ ToString (content e)
  else if type_is e (lit "done")
       then match content e with
            | Some c => if truthy c then c else acc
            | None => acc
            end
       else acc.

(** The text that the events of a turn add up to. *)
Definition gathered (events : list EventData) : jsstring :=
  fold_left text_after events [].

(** The dialogue of [t1] is the one of [t2] behind [pre], and the text
    gathered is the same. *)
Definition follows (pre : list Message) (t1 t2 : Turn) : Prop :=
  accumulated t1 = accumulated t2
  /\ messages (app t1) = pre ++ messages (app t2).

(** [st'] has the view, the scenario list, the selection and the session
    of [st], and its dialogue with messages appended. *)
Definition dialogue_grows (st st' : AppState) : Prop :=
  view st' = view st /\ scenarios st' = scenarios st
  /\ selectedRole st' = selectedRole st
  /\ selectedScenario st' = selectedScenario st
  /\ sessionId st' = sessionId st
  /\ exists added, messages st' = messages st ++ added.

(** The dialogue of the session view opens with the greeting. *)
Definition greeted (st : AppState) : Prop :=
  view st = session -> exists rest, messages st = greeting :: rest.

(** The selection is consistent while the identifiers are distinct. *)
Definition selection_ok (st : AppState) : Prop :=
  Ui.distinct (map scenario_id (scenarios st)) = true ->
  selection_consistent st.

(* ================================================================== *)
(** ** A platform to run the client on *)
(* ================================================================== *)

Module Sample.

(** A decoder for single-byte text: every byte is one code unit. *)
Definition decode_byte (d : unit) (b : byte) : unit * jsstring :=
  (d, [Byte.to_N b]).

Definition bytes (s : string) : list byte := list_byte_of_string s.

(** A JSON text, written with apostrophes for its quotation marks. *)
Definition json (s : string) : jsstring :=
  map (fun c => if N.eqb c 39 then 34%N else c) (lit s).

Arguments json s%_string.

Definition parsed_event (ty : string) (c d : option string) : JsonValue :=
  JsonData {| ev_type := Some (lit ty);
              content := option_map lit c;
              detail := option_map lit d |}.

(** The payloads this parser knows; every other text is a syntax error. *)
Definition payloads : list (jsstring * JsonValue) :=
  [ (json "{'type':'token','content':'Hi'}",
     parsed_event "token" (Some "Hi"%string) None);
    (json "{'type':'token','content':' there'}",
     parsed_event "token" (Some " there"%string) None);
    (json "{'type':'token','content':'<tool>'}",
     parsed_event "token" (Some "<tool>"%string) None);
    (json "{'type':'done','content':'Hi there'}",
     parsed_event "done" (Some "Hi there"%string) None);
    (json "{'type':'done','content':''}",
     parsed_event "done" (Some EmptyString) None);
    (json "{'type':'error','detail':'boom'}",
     parsed_event "error" None (Some "boom"%string));
    (json "{'type':'tool_call','name':'rag_search'}",
     parsed_event "tool_call" None None);
    (lit "null", JsonNull) ].

Fixpoint lookup (raw : jsstring) (table : list (jsstring * JsonValue))
  : option JsonValue :=
  match table with
  | [] => None
  | (k, v) :: rest => if JsString.eqb k raw then Some v else lookup raw rest
  end.

Definition JSON_parse (raw : jsstring) : ParseResult :=
  match lookup raw payloads with
  | Some v => Parsed v
  | None => SyntaxError (lit "Unexpected token")
  end.

Definition null_property_message : jsstring :=
  lit "Cannot read properties of null (reading 'type')".

(** The client on this platform. *)
Definition streamModel :=
  Client.streamModel decode_byte tt JSON_parse null_property_message.

Definition step :=
  Client.step decode_byte tt JSON_parse null_property_message.

Definition run :=
  Client.run decode_byte tt JSON_parse null_property_message.

(** The bytes of a text of single-byte code units. *)
Definition encode (s : jsstring) : list byte :=
  map (fun c => match Byte.of_N c with Some b => b | None => x00 end) s.

(** Frames of a model turn. *)
Definition frame_hi : jsstring :=
  lit "data: " ++ json "{'type':'token','content':'Hi'}".

Definition frame_there : jsstring :=
  lit "data: " ++ json "{'type':'token','content':' there'}".

Definition frame_markup : jsstring :=
  lit "data: " ++ json "{'type':'token','content':'<tool>'}".

Definition frame_done : jsstring :=
  lit "data: " ++ json "{'type':'done','content':'Hi there'}".

Definition frame_done_empty : jsstring :=
  lit "data: " ++ json "{'type':'done','content':''}".

Definition frame_tool_call : jsstring :=
  lit "data: " ++ json "{'type':'tool_call','name':'rag_search'}".

Definition frame_comment : jsstring := lit ": keep-alive".

(** A complete turn: two tokens, a comment frame, and the final text. *)
Definition turn_frames : list jsstring :=
  [frame_hi; frame_comment; frame_there; frame_done].

(** Its bytes in three chunks; the first boundary falls inside the blank
    line after the first frame, the second inside the third frame. *)
Definition turn_chunks : list (list byte) :=
  let bs := encode (sse_text turn_frames) in
  [firstn 38 bs; firstn 30 (skipn 38 bs); skipn 68 bs].

(** The same bytes in one chunk. *)
Definition turn_whole : list (list byte) :=
  [encode (sse_text turn_frames)].

(** A turn cut short: two tokens and the start of the final frame. *)
Definition cut_frames : list jsstring := [frame_hi; frame_there].

Definition cut_partial : jsstring := firstn 12 frame_done.

Definition cut_chunks : list (list byte) :=
  let bs := encode (sse_text cut_frames ++ cut_partial) in
  [firstn 50 bs; skipn 50 bs].

(** A turn whose tokens are tool-call markup and whose final text is
    empty. *)
Definition markup_frames : list jsstring := [frame_markup; frame_done_empty].

Definition markup_chunks : list (list byte) :=
  [encode (sse_text markup_frames)].

Definition frame_error : jsstring :=
  lit "data: " ++ json "{'type':'error','detail':'boom'}".

Definition frame_broken : jsstring := lit "data: {oops".

Definition startSession :=
  Client.startSession decode_byte tt JSON_parse null_property_message.

Definition sendChatMessage :=
  Client.sendChatMessage decode_byte tt JSON_parse null_property_message.

(** Two scenarios of role 1 and one of role 2. *)
Definition some_scenarios : list Scenario :=
  [ {| scenario_id := 101; role_id := 1;
       tasks := Some [ {| id := lit "T1"; type := theory;
                          max_points := Some 5%Z |};
                       {| id := lit "C1"; type := coding;
                          max_points := Some 10%Z |};
                       {| id := lit "SQL1"; type := sql;
                          max_points := Some 8%Z |} ] |};
    {| scenario_id := 102; role_id := 1;
       tasks := Some [ {| id := lit "T-metrics"; type := theory;
                          max_points := Some 5%Z |} ] |};
    {| scenario_id := 201; role_id := 2; tasks := None |} ].

(** The page as it is mounted, with these scenarios loaded. *)
Definition mounted : AppState :=
  {| view := landing; scenarios := some_scenarios; selectedRole := None;
     selectedScenario := None; sessionId := None; messages := [];
     streamingReply := []; streaming := false; chatInput := [];
     executionLog := None; loading := false; status := None;
     currentTaskIndex := 0%Z |}.

(** A component state with a session and an empty dialogue. *)
Definition idle (streaming_now : bool) : AppState :=
  {| view := session; scenarios := []; selectedRole := Some 1%Z;
     selectedScenario := Some 101%Z; sessionId := Some (lit "s1");
     messages := []; streamingReply := []; streaming := streaming_now;
     chatInput := []; executionLog := None; loading := false;
     status := None; currentTaskIndex := 0%Z |}.

(** The page on this platform. *)
Definition page_run :=
  Page.run decode_byte tt JSON_parse
    null_property_message.

(** The page as it is mounted, with no handler under way. *)
Definition mounted_page : Page.Page unit :=
  {| Page.cells := mounted; Page.pending := [] |}.

(** A model turn of two tokens, a frame to a chunk, and one of one token. *)
Definition turn_a : StreamResponse :=
  Body [ Chunk (encode (sse_text [frame_hi]));
         Chunk (encode (sse_text [frame_there])); Done ].

Definition turn_b : StreamResponse :=
  Body [ Chunk (encode (sse_text [frame_markup])); Done ].

(** A visit: the candidate picks role 1 and starts a session, sends a
    message and, before the POST of the message has resolved, another one;
    then both POSTs resolve. *)
Definition two_sends : list Page.Event :=
  [ Page.Click (Page.ClickRole 1%Z);
    Page.Click (Page.ClickStart (Resolves (Some (lit "s1"))) NoBody);
    Page.Settle 0;
    Page.Click (Page.InSession (Client.TypeChat (lit "one")));
    Page.Click (Page.InSession (Client.ClickSend (Resolves tt) turn_a));
    Page.Click (Page.InSession (Client.TypeChat (lit "two")));
    Page.Click (Page.InSession (Client.ClickSend (Resolves tt) turn_b));
    Page.Settle 0;
    Page.Settle 1 ].

End Sample.

Unset Implicit Arguments.

(* ================================================================== *)
(** ** Facts about strings and splitting *)
(* ================================================================== *)

Lemma eqb_eq (a b : jsstring) : JsString.eqb a b = true <-> a = b.
Proof.
  revert b; induction a as [|x a IH]; intros [|y b]; simpl.
  - split; reflexivity.
  - split; discriminate.
  - split; discriminate.
  - rewrite andb_true_iff, N.eqb_eq, IH.
    split; [intros [-> ->]; reflexivity | intros H; inversion H; auto].
Qed.

Lemma eqb_refl (a : jsstring) : JsString.eqb a a = true.
Proof. apply eqb_eq; reflexivity. Qed.

Lemma eqb_neq (a b : jsstring) : a <> b -> JsString.eqb a b = false.
Proof.
  intros H; destruct (JsString.eqb a b) eqn:E; [|reflexivity].
  apply eqb_eq in E; contradiction.
Qed.

(** Induction that follows the recursion of [split_blank]. *)
Lemma two_step_ind (P : jsstring -> Prop) :
  P [] ->
  (forall a, P [a]) ->
  (forall a b s, P s -> P (b :: s) -> P (a :: b :: s)) ->
  forall s, P s.
Proof.
  intros H0 H1 H2 s.
  assert (H : P s /\ forall a, P (a :: s)).
  { induction s as [|b s [IHs IHc]]; split; auto. }
  apply H.
Qed.

Lemma split_blank_step (a b : char16) (s : jsstring) :
  split_blank (a :: b :: s) =
  if N.eqb a LF && N.eqb b LF then [] :: split_blank s
  else cons_first a (split_blank (b :: s)).
Proof. reflexivity. Qed.

Lemma split_blank_not_nil (s : jsstring) : split_blank s <> [].
Proof.
  induction s as [|a|a b s _ IH] using two_step_ind; try discriminate.
  rewrite split_blank_step.
  destruct (N.eqb a LF && N.eqb b LF); [discriminate|].
  destruct (split_blank (b :: s)); [contradiction | discriminate].
Qed.

Lemma join_cons_first (c : char16) (ps : list jsstring) :
  ps <> [] -> join_blank (cons_first c ps) = c :: join_blank ps.
Proof.
  destruct ps as [|p [|p' ps]]; [contradiction | reflexivity | reflexivity].
Qed.

Lemma join_blank_cons (p : jsstring) (ps : list jsstring) :
  ps <> [] -> join_blank (p :: ps) = p ++ LF :: LF :: join_blank ps.
Proof. destruct ps; [contradiction | reflexivity]. Qed.

(** Joining the pieces on the delimiter gives the string back. *)
Lemma join_split (s : jsstring) : join_blank (split_blank s) = s.
Proof.
  induction s as [|a|a b s IHs IHb] using two_step_ind; try reflexivity.
  rewrite split_blank_step.
  destruct (N.eqb a LF && N.eqb b LF) eqn:E.
  - apply andb_true_iff in E; destruct E as [Ea Eb].
    apply N.eqb_eq in Ea, Eb; subst.
    rewrite join_blank_cons by apply split_blank_not_nil.
    rewrite IHs; reflexivity.
  - rewrite join_cons_first by apply split_blank_not_nil.
    rewrite IHb; reflexivity.
Qed.

Lemma split_blank_single (s p : jsstring) : split_blank s = [p] -> p = s.
Proof.
  intros H. rewrite <- (join_split s), H. reflexivity.
Qed.

Lemma removelast_cons_first (c : char16) (ps : list jsstring) :
  removelast ps <> [] ->
  removelast (cons_first c ps) = cons_first c (removelast ps).
Proof.
  destruct ps as [|p [|p' ps]]; simpl; try contradiction. reflexivity.
Qed.

(** A delimiter found in a string is found at the same place when more text
    follows: the complete pieces stay, and the scan goes on from the last,
    incomplete one. *)
Lemma split_blank_app (a b : jsstring) :
  split_blank (a ++ b) =
  removelast (split_blank a) ++ split_blank (last (split_blank a) [] ++ b).
Proof.
  induction a as [|x|x y s IHs IHy] using two_step_ind; try reflexivity.
  change ((x :: y :: s) ++ b) with (x :: y :: (s ++ b)).
  rewrite !split_blank_step.
  destruct (N.eqb x LF && N.eqb y LF) eqn:E.
  - rewrite IHs.
    destruct (split_blank s) as [|p ps] eqn:Es;
      [now apply split_blank_not_nil in Es|].
    reflexivity.
  - change (y :: s ++ b) with ((y :: s) ++ b). rewrite IHy.
    destruct (split_blank (y :: s)) as [|p [|p' ps]] eqn:Ey.
    + now apply split_blank_not_nil in Ey.
    + apply split_blank_single in Ey; subst p.
      simpl. rewrite E. reflexivity.
    + reflexivity.
Qed.

(** The last piece of a split holds no delimiter. *)
Lemma split_blank_last (s : jsstring) :
  split_blank (last (split_blank s) []) = [last (split_blank s) []].
Proof.
  induction s as [|a|a b s IHs IHb] using two_step_ind; try reflexivity.
  rewrite split_blank_step.
  destruct (N.eqb a LF && N.eqb b LF) eqn:E.
  - destruct (split_blank s) as [|p ps] eqn:Es;
      [now apply split_blank_not_nil in Es|].
    exact IHs.
  - destruct (split_blank (b :: s)) as [|p [|p' ps]] eqn:Eb.
    + now apply split_blank_not_nil in Eb.
    + apply split_blank_single in Eb; subst p.
      simpl. rewrite E.
      change (match s with
              | [] => [[b]]
              | b0 :: s2 =>
                  if N.eqb b LF && N.eqb b0 LF then [] :: split_blank s2
                  else cons_first b (split_blank s)
              end) with (split_blank (b :: s)).
      simpl in IHb. rewrite IHb. reflexivity.
    + exact IHb.
Qed.

Lemma last_append {A : Type} (xs ys : list A) (d : A) :
  ys <> [] -> last (xs ++ ys) d = last ys d.
Proof.
  intros H. induction xs as [|x xs IH]; [reflexivity|].
  change ((x :: xs) ++ ys) with (x :: (xs ++ ys)).
  destruct (xs ++ ys) eqn:E.
  - apply app_eq_nil in E; destruct E; contradiction.
  - exact IH.
Qed.

Lemma has_blank_step (a b : char16) (s : jsstring) :
  has_blank (a :: b :: s) = (N.eqb a LF && N.eqb b LF) || has_blank (b :: s).
Proof. reflexivity. Qed.

(** A frame of a well-formed stream is the first piece of what it starts. *)
Lemma split_blank_frame (f rest : jsstring) :
  whole_frame f = true ->
  split_blank (f ++ LF :: LF :: rest) = f :: split_blank rest.
Proof.
  unfold whole_frame.
  induction f as [|x [|y f] IH]; intros H.
  - reflexivity.
  - apply andb_true_iff in H; destruct H as [_ H].
    apply negb_true_iff in H. simpl in H.
    change (([x] ++ LF :: LF :: rest)) with (x :: LF :: LF :: rest).
    rewrite split_blank_step, H. simpl andb. cbv iota.
    rewrite split_blank_step. rewrite N.eqb_refl. reflexivity.
  - apply andb_true_iff in H; destruct H as [H1 H2].
    rewrite has_blank_step in H1.
    apply negb_true_iff, orb_false_iff in H1; destruct H1 as [H1 H3].
    change ((x :: y :: f) ++ LF :: LF :: rest)
      with (x :: y :: (f ++ LF :: LF :: rest)).
    rewrite split_blank_step, H1.
    change (y :: f ++ LF :: LF :: rest) with ((y :: f) ++ LF :: LF :: rest).
    rewrite IH; [reflexivity|].
    rewrite H3. exact H2.
Qed.

Lemma split_blank_frames (frames : list jsstring) (rest : jsstring) :
  forallb whole_frame frames = true ->
  split_blank (sse_text frames ++ rest) = frames ++ split_blank rest.
Proof.
  induction frames as [|f frames IH]; intros H; [reflexivity|].
  simpl in H; apply andb_true_iff in H; destruct H as [Hf H].
  change (sse_text (f :: frames)) with ((f ++ [LF; LF]) ++ sse_text frames).
  rewrite <- !app_assoc.
  change ([LF; LF] ++ sse_text frames ++ rest)
    with (LF :: LF :: (sse_text frames ++ rest)).
  rewrite split_blank_frame by exact Hf.
  rewrite IH by exact H. reflexivity.
Qed.

(** Without a blank line there is one piece. *)
Lemma split_blank_whole (s : jsstring) :
  has_blank s = false -> split_blank s = [s].
Proof.
  induction s as [|x [|y s] IH]; intros H; try reflexivity.
  rewrite has_blank_step in H. apply orb_false_iff in H; destruct H as [H1 H2].
  rewrite split_blank_step, H1, IH by exact H2. reflexivity.
Qed.

(* ================================================================== *)
(** ** Facts about the stream consumer *)
(* ================================================================== *)

Lemma chat_only_refl (st : AppState) : chat_only st st.
Proof.
  unfold chat_only; repeat split. exists []; now rewrite app_nil_r.
Qed.

Lemma chat_only_trans (a b c : AppState) :
  chat_only a b -> chat_only b c -> chat_only a c.
Proof.
  unfold chat_only.
  intros (A1 & A2 & A3 & A4 & A5 & A6 & A7 & A8 & A9 & A10 & A11 & x & Ax)
         (B1 & B2 & B3 & B4 & B5 & B6 & B7 & B8 & B9 & B10 & B11 & y & By).
  repeat split; try congruence.
  exists (x ++ y). rewrite By, Ax, app_assoc. reflexivity.
Qed.

Lemma chat_only_push (msg : Message) (st : AppState) :
  chat_only st (pushMessage msg st).
Proof. unfold chat_only; simpl; repeat split. now exists [msg]. Qed.

Lemma chat_only_reply (f : jsstring -> jsstring) (st : AppState) :
  chat_only st (setStreamingReply f st).
Proof.
  unfold chat_only; simpl; repeat split. exists []; now rewrite app_nil_r.
Qed.

Lemma type_is_true (e : EventData) (s : jsstring) :
  type_is e s = true <-> ev_type e = Some s.
Proof.
  unfold type_is. destruct (ev_type e) as [t|].
  - rewrite eqb_eq. split; [intros ->; reflexivity | congruence].
  - split; discriminate.
Qed.

Lemma type_is_false (e : EventData) (s : jsstring) :
  ev_type e <> Some s -> type_is e s = false.
Proof.
  intros H. destruct (type_is e s) eqn:E; [|reflexivity].
  apply type_is_true in E. contradiction.
Qed.

(** What an event adds to the dialogue: an [error] event one system
    message, every other event nothing. *)
Lemma on_event_messages (e : EventData) (t : Turn) :
  messages (app (on_event e t))
  = messages (app t)
    ++ (if type_is e (lit "error") then [error_message e] else []).
Proof.
  unfold on_event, error_message.
  destruct (type_is e (lit "token")), (type_is e (lit "error")),
    (type_is e (lit "done")), (content e) as [c|];
    try destruct (truthy c); simpl; rewrite ?app_nil_r; reflexivity.
Qed.

Lemma on_event_chat_only (e : EventData) (t : Turn) :
  chat_only (app t) (app (on_event e t)).
Proof.
  unfold on_event, chat_only.
  destruct (type_is e (lit "token")), (type_is e (lit "error")),
    (type_is e (lit "done")), (content e) as [c|];
    try destruct (truthy c); simpl; repeat split;
    solve [ exists []; now rewrite app_nil_r | eexists; reflexivity ].
Qed.

Lemma on_events_messages (events : list EventData) (t : Turn) :
  messages (app (on_events events t))
  = messages (app t) ++ error_messages events.
Proof.
  revert t; induction events as [|e events IH]; intros t; simpl.
  - now rewrite app_nil_r.
  - unfold on_events in IH. rewrite IH, on_event_messages.
    unfold error_messages; simpl.
    destruct (type_is e (lit "error")); simpl;
      rewrite <- ?app_assoc; reflexivity.
Qed.

Lemma on_events_app (xs ys : list EventData) (t : Turn) :
  on_events (xs ++ ys) t = on_events ys (on_events xs t).
Proof. apply fold_left_app. Qed.

(** A [done] event with text sets the gathered text to that text. *)
Lemma on_event_done (e : EventData) (c : jsstring) (t : Turn) :
  ev_type e = Some (lit "done") -> content e = Some c -> truthy c = true ->
  accumulated (on_event e t) = c.
Proof.
  intros Ht Hc Hn. unfold on_event, type_is. rewrite Ht, Hc, Hn.
  reflexivity.
Qed.

(** A [token] event appends its text to the gathered text. *)
Lemma on_event_token (e : EventData) (t : Turn) :
  ev_type e = Some (lit "token") ->
  accumulated (on_event e t) = accumulated t ++ ToString (content e)
  /\ messages (app (on_event e t)) = messages (app t).
Proof.
  intros Ht. unfold on_event, type_is. rewrite Ht. split; reflexivity.
Qed.

Lemma on_events_tokens (events : list EventData) (t : Turn) :
  Forall (fun e => ev_type e = Some (lit "token")) events ->
  accumulated (on_events events t)
  = accumulated t ++ concat (map (fun e => ToString (content e)) events)
  /\ messages (app (on_events events t)) = messages (app t).
Proof.
  intros H; revert t; induction H as [|e events He _ IH]; intros t; simpl.
  - now rewrite app_nil_r.
  - destruct (IH (on_event e t)) as [IH1 IH2].
    destruct (on_event_token e t He) as [E1 E2].
    unfold on_events in *. rewrite IH1, IH2, E1, E2, app_assoc. auto.
Qed.

Lemma on_event_accumulated (e : EventData) (t : Turn) :
  accumulated (on_event e t) = text_after (accumulated t) e.
Proof.
  unfold on_event, text_after.
  destruct (type_is e (lit "token")) eqn:T, (type_is e (lit "error")),
    (type_is e (lit "done")) eqn:D;
    try (apply type_is_true in T; apply type_is_true in D;
         rewrite T in D; discriminate);
    try reflexivity;
    destruct (content e) as [c|]; try destruct (truthy c); reflexivity.
Qed.

Lemma on_events_accumulated (events : list EventData) (t : Turn) :
  accumulated (on_events events t)
  = fold_left text_after events (accumulated t).
Proof.
  revert t; induction events as [|e events IH]; intros t; [reflexivity|].
  simpl. unfold on_events in IH. rewrite IH, on_event_accumulated.
  reflexivity.
Qed.

Lemma payloads_filter (frames : list jsstring) :
  payloads (filter data_frame frames) = payloads frames.
Proof.
  unfold payloads.
  induction frames as [|f frames IH]; [reflexivity|]. simpl.
  destruct (data_frame f) eqn:E; simpl; rewrite IH; [reflexivity|].
  unfold payload. now rewrite E.
Qed.

Lemma on_event_follows (pre : list Message) (e : EventData) (t1 t2 : Turn) :
  follows pre t1 t2 -> follows pre (on_event e t1) (on_event e t2).
Proof.
  intros [A M]. split.
  - now rewrite !on_event_accumulated, A.
  - rewrite !on_event_messages, M, app_assoc. reflexivity.
Qed.

Import Client.

Section PlatformFacts.

Variable dstate : Type.
Variable decode_byte : dstate -> byte -> dstate * jsstring.
Variable decoder_init : dstate.
Variable JSON_parse : jsstring -> ParseResult.
Variable null_property_message : jsstring.

Local Abbreviation decode := (Client.decode decode_byte).
Local Abbreviation handle_part := (Client.handle_part JSON_parse null_property_message).
Local Abbreviation for_parts := (Client.for_parts JSON_parse null_property_message).
Local Abbreviation read_loop :=
  (Client.read_loop decode_byte JSON_parse null_property_message).
Local Abbreviation stream_try :=
  (Client.stream_try decode_byte decoder_init JSON_parse null_property_message).
Local Abbreviation streamModel :=
  (Client.streamModel decode_byte decoder_init JSON_parse null_property_message).
Local Abbreviation sendChatMessage :=
  (Client.sendChatMessage decode_byte decoder_init JSON_parse null_property_message).
Local Abbreviation step :=
  (Client.step decode_byte decoder_init JSON_parse null_property_message).
Local Abbreviation run :=
  (Client.run decode_byte decoder_init JSON_parse null_property_message).

(** *** Decoding in pieces *)

Lemma decode_from (value : list byte) (acc : dstate * jsstring) :
  fold_left (Client.decode_step decode_byte) value acc
  = (fst (decode (fst acc) value), snd acc ++ snd (decode (fst acc) value)).
Proof.
  unfold Client.decode.
  revert acc; induction value as [|b value IH]; intros [d out].
  - simpl. now rewrite app_nil_r.
  - cbn [fold_left fst snd]. unfold Client.decode_step at 2 4 6.
    cbn [fst snd]. destruct (decode_byte d b) as [d' o].
    unfold jsstring in *.
    rewrite (IH (d', out ++ o)), (IH (d', [] ++ o)).
    cbn [fst snd app]. rewrite app_assoc. reflexivity.
Qed.

(** Decoding a chunk and then the next gives what decoding both at once
    gives: the decoder carries its state over the boundary. *)
Lemma decode_app (a b : list byte) (d : dstate) :
  decode d (a ++ b)
  = (fst (decode (fst (decode d a)) b),
     snd (decode d a) ++ snd (decode (fst (decode d a)) b)).
Proof.
  unfold Client.decode at 1. rewrite fold_left_app.
  fold (decode d a). apply decode_from.
Qed.

(** *** The frames of a buffer *)

Lemma handle_part_payload (part : jsstring) (t : Turn) :
  handle_part part t
  = match payload part with
    | None => (t, Normal)
    | Some raw =>
        match JSON_parse raw with
        | SyntaxError m => (t, Throw m)
        | Parsed JsonNull => (t, Throw null_property_message)
        | Parsed (JsonData data) => (on_event data t, Normal)
        end
    end.
Proof.
  unfold Client.handle_part, payload, data_frame.
  destruct (startsWith (lit "data:") (trim part)); cbn [negb];
    [|reflexivity].
  destruct (truthy (trim (slice 5 (trim part)))); reflexivity.
Qed.

(** A frame that does not start with [data:] is skipped. *)
Lemma handle_part_skip (part : jsstring) (t : Turn) :
  data_frame part = false -> handle_part part t = (t, Normal).
Proof.
  intros H. rewrite handle_part_payload. unfold payload. now rewrite H.
Qed.

Lemma for_parts_app (xs ys : list jsstring) (t : Turn) :
  for_parts (xs ++ ys) t
  = match for_parts xs t with
    | (t', Normal) => for_parts ys t'
    | (t', Throw m) => (t', Throw m)
    end.
Proof.
  revert t; induction xs as [|x xs IH]; intros t; simpl; [reflexivity|].
  destruct (handle_part x t) as [t' [|m]]; [apply IH | reflexivity].
Qed.

Lemma for_parts_filter (frames : list jsstring) (t : Turn) :
  for_parts (filter data_frame frames) t = for_parts frames t.
Proof.
  revert t; induction frames as [|f frames IH]; intros t; simpl;
    [reflexivity|].
  destruct (data_frame f) eqn:E; simpl.
  - destruct (handle_part f t) as [t' [|m]]; [apply IH | reflexivity].
  - rewrite handle_part_skip by exact E. apply IH.
Qed.

(** Frames that parse are handled as the events they hold, in order. *)
Lemma for_parts_events (frames : list jsstring) (events : list EventData)
  (t : Turn) :
  parse_to JSON_parse frames events ->
  for_parts frames t = (on_events events t, Normal).
Proof.
  unfold parse_to.
  revert events t; induction frames as [|f frames IH]; intros events t H.
  - destruct events; [reflexivity | discriminate].
  - simpl. rewrite handle_part_payload.
    unfold payloads in H; simpl in H; fold (payloads frames) in H.
    destruct (payload f) as [raw|]; simpl in H.
    + destruct events as [|e events]; [discriminate|].
      simpl in H. injection H as H1 H2. rewrite H1.
      apply (IH events (on_event e t) H2).
    + apply (IH events t H).
Qed.

(** *** The read loop *)

Lemma read_loop_chunk (value : list byte) (rest : list ReadResult)
  (d : dstate) (buffer : jsstring) (t : Turn) :
  read_loop (Chunk value :: rest) d buffer t
  = match for_parts
            (removelast (split_blank (buffer ++ snd (decode d value)))) t with
    | (t', Normal) =>
        read_loop rest (fst (decode d value))
          (last (split_blank (buffer ++ snd (decode d value))) []) t'
    | (t', Throw m) => (t', Throw m)
    end.
Proof.
  cbn [Client.read_loop]. destruct (decode d value) as [d' s]. reflexivity.
Qed.

(** Reading the chunks one by one handles the complete frames of the whole
    text, in order, and leaves the incomplete rest in the buffer. *)
Lemma read_loop_chunks (chunks : list (list byte)) (rest : list ReadResult)
  (d : dstate) (buffer : jsstring) (t : Turn) :
  split_blank buffer = [buffer] ->
  read_loop (map Chunk chunks ++ rest) d buffer t
  = let text := buffer ++ snd (decode d (concat chunks)) in
    match for_parts (removelast (split_blank text)) t with
    | (t', Normal) =>
        read_loop rest (fst (decode d (concat chunks)))
          (last (split_blank text) []) t'
    | (t', Throw m) => (t', Throw m)
    end.
Proof.
  revert d buffer t; induction chunks as [|c chunks IH];
    intros d buffer t Hb; cbv zeta.
  - simpl. rewrite app_nil_r, Hb. reflexivity.
  - change (map Chunk (c :: chunks) ++ rest)
      with (Chunk c :: (map Chunk chunks ++ rest)).
    change (concat (c :: chunks)) with (c ++ concat chunks).
    rewrite read_loop_chunk, decode_app.
    destruct (decode d c) as [d1 s1]. cbn [fst snd].
    set (s2 := snd (decode d1 (concat chunks))).
    rewrite (app_assoc buffer s1 s2), (split_blank_app (buffer ++ s1) s2).
    set (parts := split_blank (buffer ++ s1)).
    assert (Hne : split_blank (last parts [] ++ s2) <> [])
      by apply split_blank_not_nil.
    rewrite removelast_app by exact Hne.
    rewrite last_append by exact Hne.
    rewrite for_parts_app.
    destruct (for_parts (removelast parts) t) as [t1 [|m]]; [|reflexivity].
    rewrite IH by apply split_blank_last.
    reflexivity.
Qed.

(** The reads of a stream that delivers the given frames, with an
    incomplete frame at the end perhaps, and then goes on with [rest]. *)
Lemma read_loop_frames (chunks : list (list byte)) (rest : list ReadResult)
  (frames : list jsstring) (partial : jsstring) (t : Turn) :
  forallb whole_frame frames = true ->
  has_blank partial = false ->
  snd (decode decoder_init (concat chunks)) = sse_text frames ++ partial ->
  read_loop (map Chunk chunks ++ rest) decoder_init [] t
  = match for_parts frames t with
    | (t', Normal) =>
        read_loop rest (fst (decode decoder_init (concat chunks))) partial t'
    | (t', Throw m) => (t', Throw m)
    end.
Proof.
  intros Hf Hp Ht.
  rewrite read_loop_chunks by reflexivity. cbv zeta.
  rewrite !app_nil_l, Ht, split_blank_frames by exact Hf.
  rewrite split_blank_whole by exact Hp.
  rewrite removelast_last, last_last. reflexivity.
Qed.

(** The chunk boundaries do not matter. *)
Lemma read_loop_rechunk (chunks chunks' : list (list byte))
  (rest : list ReadResult) (t : Turn) :
  concat chunks = concat chunks' ->
  read_loop (map Chunk chunks ++ rest) decoder_init [] t
  = read_loop (map Chunk chunks' ++ rest) decoder_init [] t.
Proof.
  intros H. rewrite !read_loop_chunks by reflexivity. now rewrite H.
Qed.

(** *** What a run of the consumer can change *)

Lemma handle_part_chat_only (part : jsstring) (t : Turn) :
  chat_only (app t) (app (fst (handle_part part t))).
Proof.
  rewrite handle_part_payload.
  destruct (payload part) as [raw|]; [|apply chat_only_refl].
  destruct (JSON_parse raw) as [m|[|data]]; simpl;
    auto using chat_only_refl, on_event_chat_only.
Qed.

Lemma for_parts_chat_only (parts : list jsstring) (t : Turn) :
  chat_only (app t) (app (fst (for_parts parts t))).
Proof.
  revert t; induction parts as [|p parts IH]; intros t; simpl;
    [apply chat_only_refl|].
  pose proof (handle_part_chat_only p t) as H.
  destruct (handle_part p t) as [t' [|m]]; simpl in *; [|exact H].
  eapply chat_only_trans; [exact H | apply IH].
Qed.

Lemma read_loop_chat_only (reads : list ReadResult) (d : dstate)
  (buffer : jsstring) (t : Turn) :
  chat_only (app t) (app (fst (read_loop reads d buffer t))).
Proof.
  revert d buffer t; induction reads as [|r reads IH]; intros d buffer t;
    [apply chat_only_refl|].
  destruct r as [value| |m]; try apply chat_only_refl.
  rewrite read_loop_chunk.
  set (parts := split_blank (buffer ++ snd (decode d value))).
  pose proof (for_parts_chat_only (removelast parts) t) as H.
  destruct (for_parts (removelast parts) t) as [t' [|m]]; simpl in *;
    [|exact H].
  eapply chat_only_trans; [exact H | apply IH].
Qed.

Lemma stream_try_chat_only (resp : StreamResponse) (t : Turn) :
  chat_only (app t) (app (fst (stream_try resp t))).
Proof.
  destruct resp as [m| |reads]; simpl; try apply chat_only_refl.
  apply read_loop_chat_only.
Qed.

Lemma stream_catch_chat_only (r : Turn * Completion) :
  chat_only (app (fst r)) (app (stream_catch r)).
Proof.
  destruct r as [t [|m]]; simpl; [apply chat_only_refl|].
  apply chat_only_push.
Qed.

(** From the first statement of [streamModel] to the end of its [catch]
    block the component differs by messages appended and by the text of the
    reply in progress only. *)
Lemma stream_body_chat_only (resp : StreamResponse) (t : Turn) :
  chat_only (app t) (app (stream_catch (stream_try resp t))).
Proof.
  eapply chat_only_trans;
    [apply stream_try_chat_only | apply stream_catch_chat_only].
Qed.

(** *** The consumer on a well-formed stream *)

(** C2: the byte chunks of a well-formed event stream, wherever their
    boundaries fall, are reassembled on the blank-line delimiter, and the
    consumer processes exactly the events of the concatenated stream.  When
    the data frames of the stream parse to [events], one event for each
    frame, the outcome is the one of handling these events once each and in
    order: the messages appended are those of the [error] events and the
    text that the events add up to; the frames that are not data frames
    have no part in it; and every other chunking of the same bytes comes to
    the same state. *)
Theorem streamModel_reassembles_frames (sid : option jsstring)
  (st : AppState) (chunks : list (list byte)) (frames : list jsstring)
  (events : list EventData) :
  forallb whole_frame frames = true ->
  snd (decode decoder_init (concat chunks)) = sse_text frames ->
  parse_to JSON_parse (filter data_frame frames) events ->
  let st' := streamModel sid (Body (map Chunk chunks ++ [Done])) st in
  st' = (if falsy sid then st
         else stream_finally (on_events events (stream_begin st)))
  /\ (falsy sid = false ->
      messages st'
      = messages st ++ error_messages events
        ++ (if truthy (gathered events)
            then [model_message (gathered events)] else [])
      /\ streaming st' = false)
  /\ forall chunks' : list (list byte),
       concat chunks' = concat chunks ->
       streamModel sid (Body (map Chunk chunks' ++ [Done])) st = st'.
Proof.
  intros Hf Ht Hp st'.
  assert (E : st' = if falsy sid then st
                    else stream_finally (on_events events (stream_begin st))).
  { subst st'. unfold Client.streamModel.
    destruct (falsy sid); [reflexivity|].
    unfold Client.stream_try.
    rewrite (read_loop_frames chunks [Done] frames [] _ Hf eq_refl)
      by (now rewrite app_nil_r).
    rewrite <- for_parts_filter.
    rewrite (for_parts_events _ _ _ Hp).
    reflexivity. }
  split; [exact E|]. split.
  - intros Hs. rewrite E, Hs. unfold stream_finally.
    rewrite on_events_accumulated. fold (gathered events).
    change (accumulated (stream_begin st)) with (@nil char16).
    fold (gathered events).
    destruct (truthy (gathered events)); simpl;
      rewrite on_events_messages; simpl;
      rewrite <- ?app_assoc, ?app_nil_r; auto.
  - intros chunks' Hc. subst st'.
    unfold Client.streamModel, Client.stream_try.
    now rewrite (read_loop_rechunk chunks' chunks [Done] _ Hc).
Qed.

(** C3, as the code has it: when the stream ends with a [done] event whose
    content is not empty, the model message appended to the dialogue is
    that content, whatever the tokens before it added up to; the other
    messages appended are those of the [error] events. *)
Theorem streamModel_done_text (sid : option jsstring) (st : AppState)
  (chunks : list (list byte)) (rest : list ReadResult)
  (frames : list jsstring) (events : list EventData) (final : EventData)
  (c : jsstring) :
  falsy sid = false ->
  forallb whole_frame frames = true ->
  snd (decode decoder_init (concat chunks)) = sse_text frames ->
  parse_to JSON_parse frames (events ++ [final]) ->
  ev_type final = Some (lit "done") ->
  content final = Some c ->
  truthy c = true ->
  let st' := streamModel sid (Body (map Chunk chunks ++ Done :: rest)) st in
  messages st' = messages st ++ error_messages events ++ [model_message c]
  /\ streamingReply st' = []
  /\ streaming st' = false.
Proof.
  intros Hs Hf Ht Hp Hty Hc Hn st'. subst st'.
  unfold Client.streamModel. rewrite Hs. unfold Client.stream_try.
  rewrite (read_loop_frames chunks (Done :: rest) frames [] _ Hf eq_refl)
    by (now rewrite app_nil_r).
  rewrite (for_parts_events frames _ _ Hp). cbn [Client.read_loop].
  cbn [stream_catch]. rewrite on_events_app.
  set (t := on_events events (stream_begin st)).
  change (on_events [final] t) with (on_event final t).
  assert (Ha : accumulated (on_event final t) = c)
    by (apply on_event_done; assumption).
  assert (Hm : messages (app (on_event final t))
               = messages st ++ error_messages events).
  { rewrite on_event_messages, type_is_false, app_nil_r
      by (rewrite Hty; discriminate).
    unfold t. rewrite on_events_messages. reflexivity. }
  unfold stream_finally. rewrite Ha, Hn. simpl.
  rewrite Hm, <- app_assoc. auto.
Qed.

(** C4: when a read fails, the consumer appends one system message for the
    failure and handles nothing that comes after it; the tokens handled
    before the failure are kept, and their text is appended to the
    dialogue as the model message. *)
Theorem streamModel_read_failure (sid : option jsstring) (st : AppState)
  (chunks : list (list byte)) (rest : list ReadResult)
  (frames : list jsstring) (partial : jsstring) (events : list EventData)
  (m : jsstring) :
  falsy sid = false ->
  forallb whole_frame frames = true ->
  has_blank partial = false ->
  snd (decode decoder_init (concat chunks)) = sse_text frames ++ partial ->
  parse_to JSON_parse frames events ->
  Forall (fun e => ev_type e = Some (lit "token")) events ->
  let reply := concat (map (fun e => ToString (content e)) events) in
  let st' :=
    streamModel sid (Body (map Chunk chunks ++ ReadRejects m :: rest)) st in
  messages st'
  = messages st
    ++ failure_message m
       :: (if truthy reply then [model_message reply] else [])
  /\ streaming st' = false.
Proof.
  intros Hs Hf Hb Ht Hp He reply st'. subst st'.
  unfold Client.streamModel. rewrite Hs. unfold Client.stream_try.
  rewrite (read_loop_frames chunks (ReadRejects m :: rest) frames partial
             _ Hf Hb Ht).
  rewrite (for_parts_events frames _ _ Hp). cbn [Client.read_loop].
  cbn [stream_catch].
  destruct (on_events_tokens events (stream_begin st) He) as [Ha Hm].
  change (accumulated (stream_begin st)) with (@nil char16) in Ha.
  change (messages (app (stream_begin st))) with (messages st) in Hm.
  rewrite app_nil_l in Ha. fold reply in Ha.
  unfold stream_finally. cbn [accumulated app].
  rewrite Ha.
  destruct (truthy reply);
    cbn [messages streaming setStreamingReply pushMessage setMessages
         setStreaming];
    rewrite Hm; [|auto].
  rewrite <- app_assoc. auto.
Qed.

(** X7: an [error] event of the stream is shown as one system message, and
    the text of the tokens before it is kept as a model message after it. *)
Lemma streamModel_error_event (sid : option jsstring) (st : AppState)
  (chunks : list (list byte)) (frames : list jsstring)
  (events : list EventData) (failure : EventData) :
  falsy sid = false ->
  forallb whole_frame frames = true ->
  snd (decode decoder_init (concat chunks)) = sse_text frames ->
  parse_to JSON_parse frames (events ++ [failure]) ->
  Forall (fun e => ev_type e = Some (lit "token")) events ->
  ev_type failure = Some (lit "error") ->
  let reply := concat (map (fun e => ToString (content e)) events) in
  messages (streamModel sid (Body (map Chunk chunks ++ [Done])) st)
  = messages st
    ++ error_message failure
       :: (if truthy reply then [model_message reply] else []).
Proof.
  intros Hs Hf Ht Hp He Hty reply.
  unfold Client.streamModel. rewrite Hs. unfold Client.stream_try.
  rewrite (read_loop_frames chunks [Done] frames [] _ Hf eq_refl)
    by (now rewrite app_nil_r).
  rewrite (for_parts_events frames _ _ Hp). cbn [Client.read_loop].
  cbn [stream_catch]. rewrite on_events_app.
  set (t := on_events events (stream_begin st)).
  change (on_events [failure] t) with (on_event failure t).
  destruct (on_events_tokens events (stream_begin st) He) as [Ha Hm].
  change (accumulated (stream_begin st)) with (@nil char16) in Ha.
  change (messages (app (stream_begin st))) with (messages st) in Hm.
  rewrite app_nil_l in Ha. fold reply in Ha. fold t in Ha, Hm.
  assert (Ha' : accumulated (on_event failure t) = reply).
  { unfold on_event, type_is. rewrite Hty. simpl. exact Ha. }
  assert (Hm' : messages (app (on_event failure t))
                = messages st ++ [error_message failure]).
  { rewrite on_event_messages, (proj2 (type_is_true _ _) Hty), Hm.
    reflexivity. }
  unfold stream_finally. rewrite Ha'.
  destruct (truthy reply);
    cbn [messages setStreamingReply pushMessage setMessages setStreaming];
    rewrite Hm'; [|reflexivity].
  rewrite <- app_assoc. reflexivity.
Qed.

(** C9: a parsed event whose type is none of [token], [error] and [done]
    changes nothing: neither the gathered text, nor the dialogue, nor the
    reply in progress. *)
Theorem unknown_event_dropped (part raw : jsstring) (data : EventData)
  (t : Turn) :
  payload part = Some raw ->
  JSON_parse raw = Parsed (JsonData data) ->
  ev_type data <> Some (lit "token") ->
  ev_type data <> Some (lit "error") ->
  ev_type data <> Some (lit "done") ->
  on_event data t = t /\ handle_part part t = (t, Normal).
Proof.
  intros Hp Hj H1 H2 H3.
  assert (E : on_event data t = t).
  { unfold on_event. now rewrite !type_is_false by assumption. }
  split; [exact E|].
  rewrite handle_part_payload, Hp, Hj, E. reflexivity.
Qed.

(** *** What a handler can change *)

Lemma turn_only_refl (st : AppState) : turn_only st st.
Proof.
  unfold turn_only; repeat split. exists []; now rewrite app_nil_r.
Qed.

Lemma turn_only_trans (a b c : AppState) :
  turn_only a b -> turn_only b c -> turn_only a c.
Proof.
  unfold turn_only.
  intros (A1 & A2 & A3 & A4 & A5 & A6 & A7 & A8 & A9 & A10 & x & Ax)
         (B1 & B2 & B3 & B4 & B5 & B6 & B7 & B8 & B9 & B10 & y & By).
  repeat split; try congruence.
  exists (x ++ y). rewrite By, Ax, app_assoc. reflexivity.
Qed.

Lemma chat_only_turn_only (a b : AppState) : chat_only a b -> turn_only a b.
Proof. unfold chat_only, turn_only; tauto. Qed.

Lemma stream_begin_turn_only (st : AppState) :
  turn_only st (app (stream_begin st)).
Proof.
  unfold turn_only; simpl; repeat split. exists []; now rewrite app_nil_r.
Qed.

Lemma stream_finally_turn_only (t : Turn) :
  turn_only (app t) (stream_finally t).
Proof.
  unfold stream_finally, turn_only.
  destruct (truthy (accumulated t)); simpl; repeat split;
    solve [ exists []; now rewrite app_nil_r | eexists; reflexivity ].
Qed.

(** A run of [streamModel] appends to the dialogue and touches nothing but
    the reply in progress and the in-flight flag. *)
Lemma streamModel_turn_only (sid : option jsstring) (resp : StreamResponse)
  (st : AppState) :
  turn_only st (streamModel sid resp st).
Proof.
  unfold Client.streamModel. destruct (falsy sid); [apply turn_only_refl|].
  eapply turn_only_trans; [apply stream_begin_turn_only|].
  eapply turn_only_trans; [|apply stream_finally_turn_only].
  apply chat_only_turn_only, stream_body_chat_only.
Qed.


Local Abbreviation startSession :=
  (Client.startSession decode_byte decoder_init JSON_parse
     null_property_message).

(** A successful [startSession] opens a session: the dialogue starts anew
    with the greeting, and what the stream adds comes after it. *)
Lemma startSession_dialogue (new_id : option jsstring)
  (resp : StreamResponse) (st : AppState) :
  falsy_num (selectedRole st) = false ->
  falsy_num (selectedScenario st) = false ->
  exists added : list Message,
    messages (startSession (Resolves new_id) resp st)
    = {| sender := system; text := session_created_text; task_id := None |}
      :: added.
Proof.
  intros H1 H2. unfold Client.startSession. rewrite H1, H2.
  cbn [orb].
  match goal with
  | |- context [streamModel ?sid resp ?s1] =>
      destruct (streamModel_turn_only sid resp s1)
        as (_ & _ & _ & _ & _ & _ & _ & _ & _ & _ & added & E)
  end.
  exists added. cbn [messages setLoading]. rewrite E. reflexivity.
Qed.

(** An operation of a session stays in the session and appends to its
    dialogue. *)
Lemma step_messages (a : Action) (st : AppState) :
  sessionId (step a st) = sessionId st
  /\ exists added, messages (step a st) = messages st ++ added.
Proof.
  assert (R : sessionId st = sessionId st
              /\ exists added, messages st = messages st ++ added)
    by (split; [reflexivity | exists []; now rewrite app_nil_r]).
  destruct a as [post resp|value| | |post|post]; simpl.
  - destruct (send_disabled st); [exact R|].
    unfold Client.sendChatMessage.
    destruct (negb (truthy (trim (chatInput st))) || falsy (sessionId st));
      [exact R|].
    destruct post as [m|u].
    + simpl. rewrite <- app_assoc. split; [reflexivity|].
      eexists; reflexivity.
    + match goal with
      | |- context [streamModel ?sid resp ?s1] =>
          destruct (streamModel_turn_only sid resp s1)
            as (_ & _ & _ & _ & Es & _ & _ & _ & _ & _ & added & E)
      end.
      rewrite E, Es. simpl. rewrite <- app_assoc.
      split; [reflexivity|]. eexists; reflexivity.
  - exact R.
  - destruct (_ >=? _)%Z; [exact R|]. unfold goNextTask.
    destruct (_ <? _)%Z; exact R.
  - destruct (_ =? _)%Z; [exact R|]. unfold goPrevTask.
    destruct (_ >? _)%Z; exact R.
  - unfold Client.submitCode.
    destruct (currentTask st) as [[i [| |] p]|]; try exact R.
    destruct (falsy (sessionId st)); [exact R|]. destruct post; exact R.
  - unfold Client.submitSql.
    destruct (currentTask st) as [[i [| |] p]|]; try exact R.
    destruct (falsy (sessionId st)); [exact R|]. destruct post; exact R.
Qed.

Lemma run_messages (actions : list Action) (st : AppState) :
  sessionId (run actions st) = sessionId st
  /\ exists added, messages (run actions st) = messages st ++ added.
Proof.
  revert st; induction actions as [|a actions IH]; intros st.
  - split; [reflexivity|]. exists []. simpl. now rewrite app_nil_r.
  - destruct (step_messages a st) as [Sx [x Hx]].
    destruct (IH (step a st)) as [Sy [y Hy]].
    unfold Client.run in *. simpl. split; [congruence|].
    exists (x ++ y). rewrite Hy, Hx, app_assoc. reflexivity.
Qed.

(** C5: the dialogue is append-only.  The one update that handlers make to
    it within a session, [pushMessage], puts one message at the end; over
    any series of operations of a session the list as it was stays a prefix
    of the list as it is, so its length does not decrease and no message in
    it is altered or removed. *)
Theorem messages_append_only (actions : list Action) (st : AppState) :
  (forall (msg : Message) (s : AppState),
     messages (pushMessage msg s) = messages s ++ [msg])
  /\ sessionId (run actions st) = sessionId st
  /\ (exists added : list Message,
        messages (run actions st) = messages st ++ added)
  /\ length (messages st) <= length (messages (run actions st))
  /\ (forall (i : nat) (m : Message),
        nth_error (messages st) i = Some m ->
        nth_error (messages (run actions st)) i = Some m).
Proof.
  destruct (run_messages actions st) as [Es [added E]].
  split; [reflexivity|]. split; [exact Es|].
  split; [now exists added|]. rewrite E. split.
  - rewrite length_app. lia.
  - intros i m H. rewrite nth_error_app1; [exact H|].
    apply nth_error_Some. congruence.
Qed.

(** *** Task navigation *)

Lemma orderedTasks_ext (st st' : AppState) :
  scenarios st' = scenarios st ->
  selectedScenario st' = selectedScenario st ->
  orderedTasks st' = orderedTasks st.
Proof. unfold orderedTasks. intros -> ->. reflexivity. Qed.

Lemma index_in_bounds_ext (st st' : AppState) :
  scenarios st' = scenarios st ->
  selectedScenario st' = selectedScenario st ->
  currentTaskIndex st' = currentTaskIndex st ->
  index_in_bounds st -> index_in_bounds st'.
Proof.
  unfold index_in_bounds. intros H1 H2 H3.
  now rewrite (orderedTasks_ext st st' H1 H2), H3.
Qed.

Lemma index_in_bounds_turn_only (st st' : AppState) :
  turn_only st st' -> index_in_bounds st -> index_in_bounds st'.
Proof.
  intros (_ & H1 & _ & H2 & _ & _ & _ & _ & _ & H3 & _).
  now apply index_in_bounds_ext.
Qed.

Lemma goNextTask_in_bounds (st : AppState) :
  index_in_bounds st -> index_in_bounds (goNextTask st).
Proof.
  unfold goNextTask, index_in_bounds. intros H.
  destruct (Z.ltb_spec (currentTaskIndex st)
              (Z.of_nat (length (orderedTasks st)) - 1)) as [L|L]; [|exact H].
  change (orderedTasks (setCurrentTaskIndex (fun i => (i + 1)%Z) st))
    with (orderedTasks st).
  simpl currentTaskIndex. lia.
Qed.

Lemma goPrevTask_in_bounds (st : AppState) :
  index_in_bounds st -> index_in_bounds (goPrevTask st).
Proof.
  unfold goPrevTask, index_in_bounds. intros H.
  destruct (Z.gtb_spec (currentTaskIndex st) 0) as [L|L]; [|exact H].
  change (orderedTasks (setCurrentTaskIndex (fun i => (i - 1)%Z) st))
    with (orderedTasks st).
  simpl currentTaskIndex. lia.
Qed.

Lemma step_in_bounds (a : Action) (st : AppState) :
  index_in_bounds st -> index_in_bounds (step a st).
Proof.
  intros H. destruct a as [post resp|value| | |post|post]; simpl.
  - destruct (send_disabled st); [exact H|].
    unfold Client.sendChatMessage.
    destruct (negb (truthy (trim (chatInput st))) || falsy (sessionId st));
      [exact H|].
    destruct post as [m|u].
    + revert H. now apply index_in_bounds_ext.
    + eapply index_in_bounds_turn_only; [apply streamModel_turn_only|].
      revert H. now apply index_in_bounds_ext.
  - revert H. now apply index_in_bounds_ext.
  - destruct (_ >=? _)%Z; [exact H | now apply goNextTask_in_bounds].
  - destruct (_ =? _)%Z; [exact H | now apply goPrevTask_in_bounds].
  - unfold Client.submitCode.
    destruct (currentTask st) as [[i [| |] p]|]; try exact H.
    destruct (falsy (sessionId st)); [exact H|].
    destruct post; revert H; now apply index_in_bounds_ext.
  - unfold Client.submitSql.
    destruct (currentTask st) as [[i [| |] p]|]; try exact H.
    destruct (falsy (sessionId st)); [exact H|].
    destruct post; revert H; now apply index_in_bounds_ext.
Qed.

Lemma run_in_bounds (actions : list Action) (st : AppState) :
  index_in_bounds st -> index_in_bounds (run actions st).
Proof.
  revert st; induction actions as [|a actions IH]; intros st H; [exact H|].
  unfold Client.run in *. simpl. apply IH, step_in_bounds, H.
Qed.

Lemma index_in_bounds_lookup (st : AppState) :
  index_in_bounds st -> orderedTasks st <> [] ->
  exists task, currentTask st = Some task.
Proof.
  unfold index_in_bounds, currentTask, index. intros H Hne.
  destruct (orderedTasks st) as [|t ts] eqn:E; [contradiction|].
  destruct (Z.ltb_spec (currentTaskIndex st) 0) as [L|L]; [lia|].
  destruct (nth_error (t :: ts) (Z.to_nat (currentTaskIndex st))) as [x|] eqn:N.
  - now exists x.
  - apply nth_error_None in N. simpl length in *. lia.
Qed.

(** A session starts at index 0: [startSession], when it succeeds, leaves
    the index within bounds. *)
Lemma startSession_in_bounds (new_id : option jsstring)
  (resp : StreamResponse) (st : AppState) :
  falsy_num (selectedRole st) = false ->
  falsy_num (selectedScenario st) = false ->
  currentTaskIndex (startSession (Resolves new_id) resp st) = 0%Z
  /\ index_in_bounds (startSession (Resolves new_id) resp st).
Proof.
  intros H1 H2. unfold Client.startSession. rewrite H1, H2. cbn [orb].
  match goal with
  | |- context [streamModel ?sid resp ?s1] =>
      pose proof (streamModel_turn_only sid resp s1) as T;
      set (s2 := streamModel sid resp s1) in *
  end.
  assert (B : index_in_bounds s2).
  { apply (index_in_bounds_turn_only _ _ T).
    unfold index_in_bounds. simpl currentTaskIndex. lia. }
  destruct T as (_ & Tsc & _ & Tsel & _ & _ & _ & _ & _ & Ti & _).
  split; [exact Ti|].
  revert B. now apply index_in_bounds_ext.
Qed.

(** C10: the current-task index stays within bounds.  From index 0, after
    any series of operations of a session, it lies between 0 and the index
    of the last task (0 when there are no tasks); [goNextTask] and
    [goPrevTask] keep it there, [goPrevTask] changes nothing at index 0 and
    [goNextTask] nothing at the last task, and the current-task lookup
    finds a task whenever there is one. *)
Theorem task_index_in_bounds (actions : list Action) (st0 : AppState) :
  currentTaskIndex st0 = 0%Z ->
  let st := run actions st0 in
  index_in_bounds st
  /\ index_in_bounds (goNextTask st)
  /\ index_in_bounds (goPrevTask st)
  /\ (currentTaskIndex st = 0%Z -> goPrevTask st = st)
  /\ ((Z.of_nat (length (orderedTasks st)) - 1 <= currentTaskIndex st)%Z ->
      goNextTask st = st)
  /\ (orderedTasks st <> [] -> exists task, currentTask st = Some task)
  /\ (orderedTasks st = [] -> currentTask st = None).
Proof.
  intros H0 st.
  assert (H : index_in_bounds st).
  { apply run_in_bounds. unfold index_in_bounds. rewrite H0. lia. }
  split; [exact H|].
  split; [now apply goNextTask_in_bounds|].
  split; [now apply goPrevTask_in_bounds|].
  split; [|split; [|split]].
  - intros E. unfold goPrevTask. now rewrite E.
  - intros E. unfold goNextTask.
    destruct (Z.ltb_spec (currentTaskIndex st)
                (Z.of_nat (length (orderedTasks st)) - 1)); [lia|reflexivity].
  - now apply index_in_bounds_lookup.
  - intros E. unfold currentTask, index. rewrite E.
    destruct (currentTaskIndex st <? 0)%Z; [reflexivity|].
    now destruct (Z.to_nat (currentTaskIndex st)).
Qed.

End PlatformFacts.

(* ================================================================== *)
(** ** The client on the sample platform *)
(* ================================================================== *)

(** The chunks of the sample turn, with a boundary inside a blank line and
    one inside a frame, give the final text as the one model message. *)
Example sample_turn_messages :
  messages
    (Sample.streamModel (Some (lit "s1"))
       (Body (map Chunk Sample.turn_chunks ++ [Done])) (Sample.idle false))
  = [model_message (lit "Hi there")].
Proof. vm_compute. reflexivity. Qed.

Lemma streamModel_reassembles_frames_witness :
  let st' :=
    Sample.streamModel (Some (lit "s1"))
      (Body (map Chunk Sample.turn_chunks ++ [Done])) (Sample.idle false) in
  messages st' = [model_message (lit "Hi there")]
  /\ streaming st' = false
  /\ Sample.streamModel (Some (lit "s1"))
       (Body (map Chunk Sample.turn_whole ++ [Done])) (Sample.idle false)
     = st'.
Proof.
  destruct (streamModel_reassembles_frames unit Sample.decode_byte tt
              Sample.JSON_parse Sample.null_property_message
              (Some (lit "s1")) (Sample.idle false) Sample.turn_chunks
              Sample.turn_frames
              [ {| ev_type := Some (lit "token"); content := Some (lit "Hi");
                   detail := None |};
                {| ev_type := Some (lit "token");
                   content := Some (lit " there"); detail := None |};
                {| ev_type := Some (lit "done");
                   content := Some (lit "Hi there"); detail := None |} ])
    as (_ & M & R); try (vm_compute; reflexivity).
  destruct (M eq_refl) as [M1 M2].
  split; [exact M1|]. split; [exact M2|].
  apply R. reflexivity.
Defined.

Lemma streamModel_done_text_witness :
  let st' :=
    Sample.streamModel (Some (lit "s1"))
      (Body (map Chunk Sample.turn_chunks ++ [Done])) (Sample.idle false) in
  messages st' = [model_message (lit "Hi there")]
  /\ streamingReply st' = []
  /\ streaming st' = false.
Proof.
  apply (streamModel_done_text unit Sample.decode_byte tt
           Sample.JSON_parse Sample.null_property_message
           (Some (lit "s1")) (Sample.idle false) Sample.turn_chunks []
           Sample.turn_frames
           [ {| ev_type := Some (lit "token"); content := Some (lit "Hi");
                detail := None |};
             {| ev_type := Some (lit "token");
                content := Some (lit " there"); detail := None |} ]
           {| ev_type := Some (lit "done"); content := Some (lit "Hi there");
              detail := None |}
           (lit "Hi there"));
    vm_compute; reflexivity.
Defined.

(** The tokens of this turn are tool-call markup and its [done] event has
    an empty content: the message appended to the dialogue is the markup,
    not the content of [done]. *)
Lemma done_without_content_keeps_tokens :
  payloads Sample.markup_frames
  = [ Sample.json "{'type':'token','content':'<tool>'}";
      Sample.json "{'type':'done','content':''}" ]
  /\ map Sample.JSON_parse (payloads Sample.markup_frames)
     = [ Parsed (Sample.parsed_event "token" (Some "<tool>"%string) None);
         Parsed (Sample.parsed_event "done" (Some EmptyString) None) ]
  /\ messages
       (Sample.streamModel (Some (lit "s1"))
          (Body (map Chunk Sample.markup_chunks ++ [Done]))
          (Sample.idle false))
     = [model_message (lit "<tool>")]
  /\ model_message (lit "<tool>") <> model_message [].
Proof.
  repeat split; try (vm_compute; reflexivity). discriminate.
Qed.

Lemma streamModel_read_failure_witness :
  let st' :=
    Sample.streamModel (Some (lit "s1"))
      (Body (map Chunk Sample.cut_chunks
             ++ ReadRejects (lit "network error")
                :: [Chunk (Sample.encode (sse_text [Sample.frame_done]))]))
      (Sample.idle false) in
  messages st'
  = [failure_message (lit "network error"); model_message (lit "Hi there")]
  /\ streaming st' = false.
Proof.
  apply (streamModel_read_failure unit Sample.decode_byte tt
           Sample.JSON_parse Sample.null_property_message
           (Some (lit "s1")) (Sample.idle false) Sample.cut_chunks
           [Chunk (Sample.encode (sse_text [Sample.frame_done]))]
           Sample.cut_frames Sample.cut_partial
           [ {| ev_type := Some (lit "token"); content := Some (lit "Hi");
                detail := None |};
             {| ev_type := Some (lit "token");
                content := Some (lit " there"); detail := None |} ]
           (lit "network error"));
    try (vm_compute; reflexivity).
  repeat constructor.
Defined.

Lemma unknown_event_dropped_witness :
  let t := {| app := Sample.idle true; accumulated := lit "Hi" |} in
  on_event {| ev_type := Some (lit "tool_call"); content := None;
              detail := None |} t = t
  /\ Client.handle_part Sample.JSON_parse Sample.null_property_message
       Sample.frame_tool_call t = (t, Normal).
Proof.
  intros t.
  apply (unknown_event_dropped Sample.JSON_parse
           Sample.null_property_message Sample.frame_tool_call
           (Sample.json "{'type':'tool_call','name':'rag_search'}"));
    try (vm_compute; reflexivity); discriminate.
Defined.

Lemma messages_append_only_witness :
  let actions :=
    [ TypeChat (lit "hello");
      ClickSend (Resolves tt)
        (Body (map Chunk Sample.turn_chunks ++ [Done]));
      ClickNextTask ] in
  let st := Sample.run actions (Sample.idle false) in
  messages st
  = [ {| sender := candidate; text := lit "hello"; task_id := None |};
      model_message (lit "Hi there") ]
  /\ length (messages (Sample.idle false)) <= length (messages st).
Proof.
  split; [vm_compute; reflexivity|].
  apply (messages_append_only unit Sample.decode_byte tt Sample.JSON_parse
           Sample.null_property_message).
Defined.

(** [streamModel] does not look at the in-flight flag: called while the
    flag is set, it reads the stream it is given and appends the reply. *)
Lemma streamModel_while_streaming :
  streaming (Sample.idle true) = true
  /\ messages
       (Sample.streamModel (Some (lit "s1"))
          (Body (map Chunk Sample.turn_chunks ++ [Done])) (Sample.idle true))
     = messages (Sample.idle true) ++ [model_message (lit "Hi there")].
Proof. split; vm_compute; reflexivity. Qed.

(** A session on a scenario of two tasks: after two clicks on "next" and
    one on "previous" the index is back at the first task. *)
Lemma task_index_in_bounds_witness :
  let st0 :=
    setSelectedScenario (Some 7%Z)
      {| view := session;
         scenarios :=
           [ {| scenario_id := 7; role_id := 1;
                tasks := Some [ {| id := lit "T1"; type := theory;
                                   max_points := Some 5%Z |};
                                {| id := lit "C1"; type := coding;
                                   max_points := Some 10%Z |} ] |} ];
         selectedRole := Some 1%Z; selectedScenario := None;
         sessionId := Some (lit "s1"); messages := []; streamingReply := [];
         streaming := false; chatInput := []; executionLog := None;
         loading := false; status := None; currentTaskIndex := 0%Z |} in
  let st := Sample.run [ClickNextTask; ClickNextTask; ClickPrevTask] st0 in
  currentTaskIndex st = 0%Z
  /\ index_in_bounds st
  /\ index_in_bounds (goNextTask st)
  /\ index_in_bounds (goPrevTask st)
  /\ goPrevTask st = st
  /\ exists task, currentTask st = Some task.
Proof.
  intros st0 st.
  destruct (task_index_in_bounds unit Sample.decode_byte tt Sample.JSON_parse
              Sample.null_property_message
              [ClickNextTask; ClickNextTask; ClickPrevTask] st0 eq_refl)
    as (H1 & H2 & H3 & H4 & _ & H6 & _).
  split; [reflexivity|]. split; [exact H1|]. split; [exact H2|].
  split; [exact H3|]. split; [apply H4; reflexivity|].
  apply H6. discriminate.
Defined.

(* ================================================================== *)
(** ** More facts about the client *)
(* ================================================================== *)

(** *** Trimming *)

Lemma trimStart_blank (ws s : jsstring) :
  forallb is_white_space ws = true -> trimStart (ws ++ s) = trimStart s.
Proof.
  induction ws as [|c ws IH]; intros H; [reflexivity|].
  simpl in H. apply andb_true_iff in H. destruct H as [Hc H].
  simpl. rewrite Hc. now apply IH.
Qed.

Lemma trimStart_all_blank (ws : jsstring) :
  forallb is_white_space ws = true -> trimStart ws = [].
Proof.
  intros H. rewrite <- (app_nil_r ws). now rewrite trimStart_blank.
Qed.

Lemma trimStart_keeps (s ws : jsstring) :
  trimStart s <> [] -> trimStart (s ++ ws) = trimStart s ++ ws.
Proof.
  induction s as [|c s IH]; intros H; [contradiction|].
  simpl in *. destruct (is_white_space c); [now apply IH | reflexivity].
Qed.

Lemma trimEnd_blank (s ws : jsstring) :
  forallb is_white_space ws = true -> trimEnd (s ++ ws) = trimEnd s.
Proof.
  intros H. unfold trimEnd. rewrite rev_app_distr, trimStart_blank;
    [reflexivity|].
  apply forallb_forall. intros c Hc. apply in_rev in Hc.
  revert c Hc. now apply forallb_forall.
Qed.

(** Blank characters around a string do not change what [trim] gives. *)
Lemma trim_pad (ws1 s ws2 : jsstring) :
  forallb is_white_space ws1 = true ->
  forallb is_white_space ws2 = true ->
  trim (ws1 ++ s ++ ws2) = trim s.
Proof.
  intros H1 H2. unfold trim. rewrite trimStart_blank by exact H1.
  destruct (trimStart s) as [|c r] eqn:E.
  - assert (B : trimStart (s ++ ws2) = []).
    { clear H1. induction s as [|x s IH]; simpl in *.
      - now apply trimStart_all_blank.
      - destruct (is_white_space x); [now apply IH | discriminate]. }
    now rewrite B.
  - rewrite trimStart_keeps by (rewrite E; discriminate).
    rewrite E. now apply trimEnd_blank.
Qed.

Lemma trim_all_blank (ws : jsstring) :
  forallb is_white_space ws = true -> trim ws = [].
Proof.
  intros H. unfold trim. now rewrite trimStart_all_blank.
Qed.

(** *** The reply in progress *)


Section MoreClientFacts.

Variable dstate : Type.
Variable decode_byte : dstate -> byte -> dstate * jsstring.
Variable decoder_init : dstate.
Variable JSON_parse : jsstring -> ParseResult.
Variable null_property_message : jsstring.

Local Abbreviation decode := (Client.decode decode_byte).
Local Abbreviation handle_part :=
  (Client.handle_part JSON_parse null_property_message).
Local Abbreviation for_parts :=
  (Client.for_parts JSON_parse null_property_message).
Local Abbreviation read_loop :=
  (Client.read_loop decode_byte JSON_parse null_property_message).
Local Abbreviation stream_try :=
  (Client.stream_try decode_byte decoder_init JSON_parse
     null_property_message).
Local Abbreviation streamModel :=
  (Client.streamModel decode_byte decoder_init JSON_parse
     null_property_message).
Local Abbreviation sendChatMessage :=
  (Client.sendChatMessage decode_byte decoder_init JSON_parse
     null_property_message).
Local Abbreviation startSession :=
  (Client.startSession decode_byte decoder_init JSON_parse
     null_property_message).
Local Abbreviation step :=
  (Client.step decode_byte decoder_init JSON_parse null_property_message).







(** *** Streams that end early or badly *)

(** X3: text after the last blank line is never handled.  When the stream
    closes, what the buffer holds is dropped, a complete [data:] line
    without its blank line included: the outcome is the one of the frames
    before it. *)
Theorem streamModel_drops_unterminated_frame (sid : option jsstring)
  (st : AppState) (chunks : list (list byte)) (rest : list ReadResult)
  (frames : list jsstring) (partial : jsstring) :
  forallb whole_frame frames = true ->
  has_blank partial = false ->
  snd (decode decoder_init (concat chunks)) = sse_text frames ++ partial ->
  streamModel sid (Body (map Chunk chunks ++ Done :: rest)) st
  = (if falsy sid then st
     else stream_finally (stream_catch (for_parts frames (stream_begin st))))
  /\ streamModel sid (Body (map Chunk chunks)) st
     = streamModel sid (Body (map Chunk chunks ++ Done :: rest)) st.
Proof.
  intros Hf Hp Ht. unfold Client.streamModel.
  destruct (falsy sid); [split; reflexivity|].
  unfold Client.stream_try.
  rewrite <- (app_nil_r (map Chunk chunks)) at 2.
  rewrite !(read_loop_frames dstate decode_byte decoder_init JSON_parse
              null_property_message chunks _ frames partial _ Hf Hp Ht).
  destruct (for_parts frames (stream_begin st)) as [t' [|m]];
    split; reflexivity.
Qed.

(** X4: a stream that cannot be opened, because the fetch fails or the
    response has no body, is reported by one system message; no model
    message is added and nothing stays in flight. *)
Theorem streamModel_cannot_open (sid : option jsstring) (m : jsstring)
  (st : AppState) :
  falsy sid = false ->
  messages (streamModel sid (FetchRejects m) st)
  = messages st ++ [failure_message m]
  /\ messages (streamModel sid NoBody st)
     = messages st ++ [failure_message no_body_message]
  /\ streaming (streamModel sid (FetchRejects m) st) = false
  /\ streaming (streamModel sid NoBody st) = false.
Proof.
  intros H. unfold Client.streamModel. rewrite H. repeat split.
Qed.

(** X5: a frame that does not parse ends the turn.  The frames before it
    have been handled and their tokens are kept; the frames after it are
    not handled, even those that arrived in the same chunk; one system
    message reports the failure and no further read is made. *)
Theorem streamModel_malformed_frame (sid : option jsstring) (st : AppState)
  (chunks : list (list byte)) (rest : list ReadResult)
  (frames later : list jsstring) (bad m : jsstring)
  (events : list EventData) :
  falsy sid = false ->
  forallb whole_frame (frames ++ bad :: later) = true ->
  snd (decode decoder_init (concat chunks))
  = sse_text (frames ++ bad :: later) ->
  parse_to JSON_parse frames events ->
  Forall (fun e => ev_type e = Some (lit "token")) events ->
  throws JSON_parse null_property_message bad m ->
  let reply := concat (map (fun e => ToString (content e)) events) in
  let st' := streamModel sid (Body (map Chunk chunks ++ rest)) st in
  messages st'
  = messages st
    ++ failure_message m
       :: (if truthy reply then [model_message reply] else [])
  /\ streaming st' = false.
Proof.
  intros Hs Hf Ht Hp He (raw & Hr & Hj) reply st'. subst st'.
  unfold Client.streamModel. rewrite Hs. unfold Client.stream_try.
  rewrite (read_loop_frames dstate decode_byte decoder_init JSON_parse
             null_property_message chunks rest (frames ++ bad :: later) []
             _ Hf eq_refl) by (now rewrite app_nil_r).
  rewrite for_parts_app, (for_parts_events _ _ _ _ _ Hp).
  cbn [Client.for_parts]. rewrite handle_part_payload, Hr.
  assert (T : match JSON_parse raw with
              | SyntaxError m0 =>
                  (on_events events (stream_begin st), Throw m0)
              | Parsed JsonNull =>
                  (on_events events (stream_begin st),
                   Throw null_property_message)
              | Parsed (JsonData data) =>
                  (on_event data (on_events events (stream_begin st)), Normal)
              end = (on_events events (stream_begin st), Throw m)).
  { destruct Hj as [-> | [-> ->]]; reflexivity. }
  rewrite T. cbn [stream_catch].
  destruct (on_events_tokens events (stream_begin st) He) as [Ha Hm].
  change (accumulated (stream_begin st)) with (@nil char16) in Ha.
  change (messages (app (stream_begin st))) with (messages st) in Hm.
  rewrite app_nil_l in Ha. fold reply in Ha.
  unfold stream_finally. cbn [accumulated app].
  rewrite Ha.
  destruct (truthy reply);
    cbn [messages streaming setStreamingReply pushMessage setMessages
         setStreaming];
    rewrite Hm; [|auto].
  rewrite <- app_assoc. auto.
Qed.

Lemma on_event_done_without_text (e : EventData) (t : Turn) :
  ev_type e = Some (lit "done") -> falsy (content e) = true ->
  on_event e t = t.
Proof.
  intros Ht Hc. unfold on_event, type_is. rewrite Ht. simpl.
  destruct (content e) as [c|]; [|reflexivity].
  simpl in Hc. apply negb_true_iff in Hc. now rewrite Hc.
Qed.

Lemma on_events_done_without_text (finals : list EventData) (t : Turn) :
  Forall (fun e => ev_type e = Some (lit "done")
                   /\ falsy (content e) = true) finals ->
  on_events finals t = t.
Proof.
  intros H; revert t; induction H as [|e finals [Ht Hc] _ IH]; intros t;
    [reflexivity|].
  simpl. rewrite on_event_done_without_text by assumption. apply IH.
Qed.

(** X6: a turn that ends without a text in [done] stores what its tokens
    add up to.  When the stream holds tokens and then closes, with [done]
    events whose content is empty or missing or with none, the model
    message is the concatenation of the token contents in order; when that
    is empty, no model message is added at all. *)
Theorem streamModel_token_text (sid : option jsstring) (st : AppState)
  (chunks : list (list byte)) (rest : list ReadResult)
  (frames : list jsstring) (tokens finals : list EventData) :
  falsy sid = false ->
  forallb whole_frame frames = true ->
  snd (decode decoder_init (concat chunks)) = sse_text frames ->
  parse_to JSON_parse frames (tokens ++ finals) ->
  Forall (fun e => ev_type e = Some (lit "token")) tokens ->
  Forall (fun e => ev_type e = Some (lit "done")
                   /\ falsy (content e) = true) finals ->
  let reply := concat (map (fun e => ToString (content e)) tokens) in
  messages (streamModel sid (Body (map Chunk chunks ++ Done :: rest)) st)
  = messages st ++ (if truthy reply then [model_message reply] else []).
Proof.
  intros Hs Hf Ht Hp He Hd reply.
  unfold Client.streamModel. rewrite Hs. unfold Client.stream_try.
  rewrite (read_loop_frames dstate decode_byte decoder_init JSON_parse
             null_property_message chunks (Done :: rest) frames []
             _ Hf eq_refl) by (now rewrite app_nil_r).
  rewrite (for_parts_events _ _ _ _ _ Hp). cbn [Client.read_loop].
  cbn [stream_catch].
  rewrite on_events_app, on_events_done_without_text by exact Hd.
  destruct (on_events_tokens tokens (stream_begin st) He) as [Ha Hm].
  change (accumulated (stream_begin st)) with (@nil char16) in Ha.
  change (messages (app (stream_begin st))) with (messages st) in Hm.
  rewrite app_nil_l in Ha. fold reply in Ha.
  unfold stream_finally. rewrite Ha.
  destruct (truthy reply);
    cbn [messages setStreamingReply pushMessage setMessages setStreaming];
    rewrite Hm; [reflexivity | now rewrite app_nil_r].
Qed.

(** X8: blank characters around a frame do not matter: a frame with spaces,
    tabs, carriage returns or line feeds before and after it is handled as
    the frame without them. *)
Theorem handle_part_ignores_padding (ws1 part ws2 : jsstring) (t : Turn) :
  forallb is_white_space ws1 = true ->
  forallb is_white_space ws2 = true ->
  handle_part (ws1 ++ part ++ ws2) t = handle_part part t.
Proof.
  intros H1 H2. unfold Client.handle_part.
  now rewrite (trim_pad ws1 part ws2 H1 H2).
Qed.

(** *** Sending a message *)

(** X9: a message that is blank is not sent: with a chat input of blank
    characters only, or without a session, [sendChatMessage] changes
    nothing, whatever the server would answer. *)
Theorem sendChatMessage_blank (post : FetchJson unit) (resp : StreamResponse)
  (st : AppState) :
  forallb is_white_space (chatInput st) = true
  \/ falsy (sessionId st) = true ->
  sendChatMessage post resp st = st.
Proof.
  intros [H|H]; unfold Client.sendChatMessage.
  - now rewrite (trim_all_blank _ H).
  - rewrite H. now rewrite orb_true_r.
Qed.


(** *** Moving through the tasks *)

(** X11: "next" and "previous" undo each other.  Between the first and the
    last task, [goPrevTask] after [goNextTask] and [goNextTask] after
    [goPrevTask] give the state back. *)
Theorem goNextTask_goPrevTask_inverse (st : AppState) :
  ((0 <= currentTaskIndex st
    < Z.of_nat (length (orderedTasks st)) - 1)%Z ->
   goPrevTask (goNextTask st) = st)
  /\ ((0 < currentTaskIndex st
       <= Z.of_nat (length (orderedTasks st)) - 1)%Z ->
      goNextTask (goPrevTask st) = st).
Proof.
  split; intros H.
  - unfold goNextTask.
    destruct (Z.ltb_spec (currentTaskIndex st)
                (Z.of_nat (length (orderedTasks st)) - 1)); [|lia].
    unfold goPrevTask. simpl currentTaskIndex.
    destruct (Z.gtb_spec (currentTaskIndex st + 1) 0); [|lia].
    destruct st; unfold setCurrentTaskIndex; simpl. f_equal. lia.
  - unfold goPrevTask.
    destruct (Z.gtb_spec (currentTaskIndex st) 0); [|lia].
    unfold goNextTask.
    change (orderedTasks (setCurrentTaskIndex (fun i => (i - 1)%Z) st))
      with (orderedTasks st).
    simpl currentTaskIndex.
    destruct (Z.ltb_spec (currentTaskIndex st - 1)
                (Z.of_nat (length (orderedTasks st)) - 1)); [|lia].
    destruct st; unfold setCurrentTaskIndex; simpl. f_equal. lia.
Qed.

Lemma iter_goNextTask_index (n : nat) (st : AppState) :
  index_in_bounds st ->
  currentTaskIndex (Nat.iter n goNextTask st)
  = Z.min (currentTaskIndex st + Z.of_nat n)
      (Z.max 0 (Z.of_nat (length (orderedTasks st)) - 1))
  /\ orderedTasks (Nat.iter n goNextTask st) = orderedTasks st.
Proof.
  unfold index_in_bounds. intros H.
  induction n as [|n [IHi IHt]].
  - simpl. split; [lia | reflexivity].
  - rewrite Nat2Z.inj_succ.
    change (Nat.iter (S n) goNextTask st)
      with (goNextTask (Nat.iter n goNextTask st)).
    set (s := Nat.iter n goNextTask st) in *.
    unfold goNextTask. rewrite IHt.
    destruct (Z.ltb_spec (currentTaskIndex s)
                (Z.of_nat (length (orderedTasks st)) - 1)) as [L|L].
    + change (orderedTasks (setCurrentTaskIndex (fun i => (i + 1)%Z) s))
        with (orderedTasks s).
      simpl currentTaskIndex. split; [lia | exact IHt].
    + split; [lia | exact IHt].
Qed.

Lemma iter_goPrevTask_index (n : nat) (st : AppState) :
  (0 <= currentTaskIndex st)%Z ->
  currentTaskIndex (Nat.iter n goPrevTask st)
  = Z.max 0 (currentTaskIndex st - Z.of_nat n).
Proof.
  intros H. induction n as [|n IH].
  - simpl. lia.
  - rewrite Nat2Z.inj_succ.
    change (Nat.iter (S n) goPrevTask st)
      with (goPrevTask (Nat.iter n goPrevTask st)).
    set (s := Nat.iter n goPrevTask st) in *.
    unfold goPrevTask.
    destruct (Z.gtb_spec (currentTaskIndex s) 0) as [L|L];
      simpl currentTaskIndex; lia.
Qed.

(** X12: enough clicks reach the ends and stay there.  From an index within
    bounds, [n] clicks on "next" move the index forward by [n] but not past
    the last task, and [n] clicks on "previous" move it back by [n] but not
    below 0; so as many clicks as there are tasks reach the last task, or
    the first. *)
Theorem navigation_saturates (n : nat) (st : AppState) :
  index_in_bounds st ->
  currentTaskIndex (Nat.iter n goNextTask st)
  = Z.min (currentTaskIndex st + Z.of_nat n)
      (Z.max 0 (Z.of_nat (length (orderedTasks st)) - 1))
  /\ currentTaskIndex (Nat.iter n goPrevTask st)
     = Z.max 0 (currentTaskIndex st - Z.of_nat n)
  /\ (length (orderedTasks st) <= n ->
      currentTaskIndex (Nat.iter n goNextTask st)
      = Z.max 0 (Z.of_nat (length (orderedTasks st)) - 1)
      /\ currentTaskIndex (Nat.iter n goPrevTask st) = 0%Z).
Proof.
  intros H.
  destruct (iter_goNextTask_index n st H) as [Hn _].
  assert (Hp := iter_goPrevTask_index n st (proj1 H)).
  split; [exact Hn|]. split; [exact Hp|].
  intros L. rewrite Hn, Hp. unfold index_in_bounds in H. lia.
Qed.

(** *** Starting a session *)

Lemma startSession_cells (new_id : option jsstring) (resp : StreamResponse)
  (st : AppState) :
  falsy_num (selectedRole st) || falsy_num (selectedScenario st) = false ->
  let st' := startSession (Resolves new_id) resp st in
  sessionId st' = new_id /\ view st' = session
  /\ currentTaskIndex st' = 0%Z
  /\ status st' = Some session_active_text
  /\ loading st' = false
  /\ scenarios st' = scenarios st
  /\ selectedRole st' = selectedRole st
  /\ selectedScenario st' = selectedScenario st
  /\ exists added, messages st' = greeting :: added.
Proof.
  intros H st'. subst st'. unfold Client.startSession. rewrite H.
  match goal with
  | |- context [streamModel ?sid resp ?s1] =>
      destruct (streamModel_turn_only dstate decode_byte decoder_init
                  JSON_parse null_property_message sid resp s1)
        as (Tv & Tsc & Tr & Tsel & Tid & _ & _ & _ & Tst & Ti & added & E);
      set (s2 := streamModel sid resp s1) in *
  end.
  cbn [sessionId view currentTaskIndex status loading scenarios selectedRole
       selectedScenario messages setLoading].
  rewrite Tid, Tv, Ti, Tst, Tsc, Tr, Tsel, E.
  repeat split. now exists added.
Qed.

Lemma handle_part_follows (pre : list Message) (part : jsstring)
  (t1 t2 : Turn) :
  follows pre t1 t2 ->
  follows pre (fst (handle_part part t1)) (fst (handle_part part t2))
  /\ snd (handle_part part t1) = snd (handle_part part t2).
Proof.
  intros H.
  rewrite !(handle_part_payload JSON_parse null_property_message).
  destruct (payload part) as [raw|]; [|auto].
  destruct (JSON_parse raw) as [m|[|data]]; simpl; auto.
  split; [now apply on_event_follows | reflexivity].
Qed.

Lemma for_parts_follows (pre : list Message) (parts : list jsstring)
  (t1 t2 : Turn) :
  follows pre t1 t2 ->
  follows pre (fst (for_parts parts t1)) (fst (for_parts parts t2))
  /\ snd (for_parts parts t1) = snd (for_parts parts t2).
Proof.
  revert t1 t2; induction parts as [|p parts IH]; intros t1 t2 H; [auto|].
  simpl. destruct (handle_part_follows pre p t1 t2 H) as [F C].
  destruct (handle_part p t1) as [u1 c1], (handle_part p t2) as [u2 c2].
  simpl in F, C. subst c2. destruct c1 as [|m]; [now apply IH | auto].
Qed.

Lemma read_loop_follows (pre : list Message) (reads : list ReadResult)
  (d : dstate) (buffer : jsstring) (t1 t2 : Turn) :
  follows pre t1 t2 ->
  follows pre (fst (read_loop reads d buffer t1))
    (fst (read_loop reads d buffer t2))
  /\ snd (read_loop reads d buffer t1) = snd (read_loop reads d buffer t2).
Proof.
  revert d buffer t1 t2; induction reads as [|r reads IH];
    intros d buffer t1 t2 H; [auto|].
  destruct r as [value| |m]; [|simpl; auto|simpl; auto].
  rewrite !(read_loop_chunk dstate decode_byte JSON_parse
              null_property_message).
  set (parts := removelast (split_blank (buffer ++ snd (decode d value)))).
  destruct (for_parts_follows pre parts t1 t2 H) as [F C].
  destruct (for_parts parts t1) as [u1 c1], (for_parts parts t2) as [u2 c2].
  simpl in F, C. subst c2. destruct c1 as [|m]; [now apply IH | auto].
Qed.

(** What a model turn appends to the dialogue does not depend on the
    dialogue, nor on any other cell. *)
Lemma streamModel_appends (sid : option jsstring) (resp : StreamResponse) :
  exists added : list Message,
    forall st : AppState,
      messages (streamModel sid resp st) = messages st ++ added.
Proof.
  set (blank := {| view := landing; scenarios := []; selectedRole := None;
                   selectedScenario := None; sessionId := None;
                   messages := []; streamingReply := []; streaming := false;
                   chatInput := []; executionLog := None; loading := false;
                   status := None; currentTaskIndex := 0%Z |}).
  exists (messages (streamModel sid resp blank)). intros st.
  unfold Client.streamModel.
  destruct (falsy sid); [now rewrite app_nil_r|].
  assert (F : follows (messages st) (stream_begin st) (stream_begin blank)).
  { split; [reflexivity|]. simpl. now rewrite app_nil_r. }
  assert (G : follows (messages st)
                (stream_catch (stream_try resp (stream_begin st)))
                (stream_catch (stream_try resp (stream_begin blank)))).
  { unfold Client.stream_try.
    destruct resp as [m| |reads].
    - destruct F as [A M]. split; [exact A | reflexivity].
    - destruct F as [A M]. split; [exact A | reflexivity].
    - destruct (read_loop_follows (messages st) reads decoder_init []
                  _ _ F) as [[A M] C].
      destruct (read_loop reads decoder_init [] (stream_begin st))
        as [u1 c1],
        (read_loop reads decoder_init [] (stream_begin blank)) as [u2 c2].
      simpl in A, M, C. subst c2.
      destruct c1 as [|m]; split; simpl; auto.
      rewrite M, app_assoc. reflexivity. }
  destruct G as [A M]. unfold stream_finally. rewrite A.
  destruct (truthy _); simpl; rewrite M; [|reflexivity].
  now rewrite app_assoc.
Qed.

(** X13: a start that goes through opens the session: the identifier is the
    one the server gave, the session view is shown at the first task, and
    the dialogue is the greeting followed by what the model turn appends to
    any dialogue, and by nothing else: nothing of the dialogue before is
    kept. *)
Theorem startSession_opens_session (new_id : option jsstring)
  (resp : StreamResponse) (st : AppState) :
  falsy_num (selectedRole st) = false ->
  falsy_num (selectedScenario st) = false ->
  let st' := startSession (Resolves new_id) resp st in
  sessionId st' = new_id /\ view st' = session
  /\ currentTaskIndex st' = 0%Z
  /\ status st' = Some session_active_text
  /\ loading st' = false
  /\ exists added : list Message,
       messages st' = greeting :: added
       /\ forall st0 : AppState,
            messages (streamModel (sessionId st) resp st0)
            = messages st0 ++ added.
Proof.
  intros H1 H2 st'.
  destruct (startSession_cells new_id resp st) as (A & B & C & D & E & _).
  { now rewrite H1, H2. }
  repeat (split; [assumption|]).
  destruct (streamModel_appends (sessionId st) resp) as [added Ha].
  exists added. split; [|exact Ha].
  subst st'. unfold Client.startSession. rewrite H1, H2.
  cbn [orb messages setLoading]. rewrite Ha. reflexivity.
Qed.

(** X14: the first start does not read the model's opening turn.  The
    [streamModel] that [startSession] awaits belongs to the render of the
    click, whose [sessionId] is still empty, so it returns at once: the
    dialogue is the greeting alone and nothing is in flight, whatever the
    stream holds. *)
Theorem startSession_first_turn_not_read (new_id : option jsstring)
  (resp : StreamResponse) (st : AppState) :
  falsy_num (selectedRole st) = false ->
  falsy_num (selectedScenario st) = false ->
  falsy (sessionId st) = true ->
  messages (startSession (Resolves new_id) resp st) = [greeting]
  /\ streaming (startSession (Resolves new_id) resp st) = streaming st
  /\ startSession (Resolves new_id) resp st
     = startSession (Resolves new_id) NoBody st.
Proof.
  intros H1 H2 H3. unfold Client.startSession, Client.streamModel.
  rewrite H1, H2, H3. repeat split.
Qed.

(** *** The page *)

Lemma effect_cells (st : AppState) :
  view (Ui.roleScenarioEffect st) = view st
  /\ scenarios (Ui.roleScenarioEffect st) = scenarios st
  /\ selectedRole (Ui.roleScenarioEffect st) = selectedRole st
  /\ messages (Ui.roleScenarioEffect st) = messages st
  /\ currentTaskIndex (Ui.roleScenarioEffect st) = currentTaskIndex st.
Proof.
  unfold Ui.roleScenarioEffect.
  destruct (negb (falsy_num (selectedRole st))
            && falsy_num (selectedScenario st)); [|repeat split].
  destruct (selectedRole st) as [r|] eqn:R; [|repeat split; exact R].
  destruct (find _ _); repeat split; exact R.
Qed.

(** X15: the effect that picks a scenario settles at once: run on its own
    result it changes nothing, so it cannot keep the page rendering. *)
Theorem roleScenarioEffect_idempotent (st : AppState) :
  Ui.roleScenarioEffect (Ui.roleScenarioEffect st) = Ui.roleScenarioEffect st.
Proof.
  remember (Ui.roleScenarioEffect st) as st' eqn:E.
  unfold Ui.roleScenarioEffect in E.
  destruct (negb (falsy_num (selectedRole st))
            && falsy_num (selectedScenario st)) eqn:C;
    [|subst st'; unfold Ui.roleScenarioEffect; now rewrite C].
  destruct (selectedRole st) as [r|] eqn:R; [|simpl in C; discriminate].
  destruct (find (fun s => (role_id s =? r)%Z) (scenarios st))
    as [first|] eqn:F;
    [|subst st'; unfold Ui.roleScenarioEffect; now rewrite R, C, F].
  subst st'. unfold Ui.roleScenarioEffect.
  cbn [selectedRole selectedScenario scenarios setSelectedScenario].
  rewrite R, F.
  destruct (negb (falsy_num (Some r))
            && falsy_num (Some (scenario_id first))); reflexivity.
Qed.

Lemma effect_selection_consistent (st : AppState) :
  selection_consistent st -> selection_consistent (Ui.roleScenarioEffect st).
Proof.
  intros H. unfold Ui.roleScenarioEffect.
  destruct (negb (falsy_num (selectedRole st))
            && falsy_num (selectedScenario st)); [|exact H].
  destruct (selectedRole st) as [r|] eqn:R; [|exact H].
  destruct (find (fun s => (role_id s =? r)%Z) (scenarios st))
    as [first|] eqn:F; [|exact H].
  intros r' sel Hr Hn Hs. simpl in Hr, Hs.
  rewrite R in Hr. injection Hr as <-. injection Hs as <-.
  apply find_some in F. destruct F as [Fi Fr].
  exists first. simpl. apply Z.eqb_eq in Fr. auto.
Qed.

Lemma selection_consistent_ext (st st' : AppState) :
  scenarios st' = scenarios st ->
  selectedRole st' = selectedRole st ->
  selectedScenario st' = selectedScenario st ->
  selection_consistent st -> selection_consistent st'.
Proof.
  unfold selection_consistent. intros -> -> -> H. exact H.
Qed.

Lemma find_app_some {A : Type} (f : A -> bool) (l l' : list A) (x : A) :
  find f l = Some x -> find f (l ++ l') = Some x.
Proof.
  induction l as [|y l IH]; simpl; [discriminate|].
  destruct (f y); [auto | exact IH].
Qed.

(** X19: saving a scenario does not disturb the scenario in use.  When the
    selected scenario is in the list, appending the saved one leaves the
    task list and the current task as they are, also when the new scenario
    has the same identifier. *)
Theorem submitScenario_keeps_tasks (resp : Scenario) (st : AppState)
  (sel : Z) (s : Scenario) :
  selectedScenario st = Some sel ->
  In s (scenarios st) -> scenario_id s = sel ->
  orderedTasks (Ui.submitScenario (Resolves resp) st) = orderedTasks st
  /\ currentTask (Ui.submitScenario (Resolves resp) st) = currentTask st
  /\ scenarios (Ui.submitScenario (Resolves resp) st)
     = scenarios st ++ [resp].
Proof.
  intros Hs Hi Hid.
  assert (E : orderedTasks (Ui.submitScenario (Resolves resp) st)
              = orderedTasks st).
  { unfold orderedTasks. simpl. rewrite Hs.
    destruct (find (fun s0 => (scenario_id s0 =? sel)%Z) (scenarios st))
      as [x|] eqn:F.
    - now rewrite (find_app_some _ _ _ _ F).
    - exfalso. apply (find_none _ _ F) in Hi.
      apply Z.eqb_neq in Hi. contradiction. }
  split; [exact E|]. split; [|reflexivity].
  unfold currentTask. now rewrite E.
Qed.

(** *** Submissions *)

(** X20: the execution log is written by submissions only, and a submission
    that reaches its handler writes the answer of the server or the error
    of the request.  The buttons are rendered for a task of their type and
    disabled without a session, so the text of the guard at the head of
    [submitCode] and [submitSql] is never shown; typing, sending a message
    and moving between tasks leave the log as it is. *)
Theorem execution_log_written_by_submissions (a : Action) (st : AppState) :
  match a with
  | ClickSubmitCode post =>
      step a st = st
      \/ step a st
         = setExecutionLog
             (Some match post with
                   | Resolves log => log
                   | Rejects m => submit_error_prefix ++ m
                   end) st
  | ClickSubmitSql post =>
      step a st = st
      \/ step a st
         = setExecutionLog
             (Some match post with
                   | Resolves log => log
                   | Rejects m => sql_error_prefix ++ m
                   end) st
  | _ => executionLog (step a st) = executionLog st
  end.
Proof.
  destruct a as [post resp|value| | |post|post]; simpl.
  - destruct (send_disabled st); [reflexivity|].
    unfold Client.sendChatMessage.
    destruct (negb (truthy (trim (chatInput st))) || falsy (sessionId st));
      [reflexivity|].
    destruct post as [m|u]; [reflexivity|].
    match goal with
    | |- context [streamModel ?sid resp ?s1] =>
        destruct (streamModel_turn_only dstate decode_byte decoder_init
                    JSON_parse null_property_message sid resp s1)
          as (_ & _ & _ & _ & _ & _ & Tl & _)
    end.
    rewrite Tl. reflexivity.
  - reflexivity.
  - destruct (_ >=? _)%Z; [reflexivity|]. unfold goNextTask.
    destruct (_ <? _)%Z; reflexivity.
  - destruct (_ =? _)%Z; [reflexivity|]. unfold goPrevTask.
    destruct (_ >? _)%Z; reflexivity.
  - unfold Client.submitCode.
    destruct (currentTask st) as [[i [| |] p]|]; auto.
    destruct (falsy (sessionId st)); [auto|]. destruct post; auto.
  - unfold Client.submitSql.
    destruct (currentTask st) as [[i [| |] p]|]; auto.
    destruct (falsy (sessionId st)); [auto|]. destruct post; auto.
Qed.

End MoreClientFacts.

(* ================================================================== *)
(** ** The page with its handlers under way *)
(* ================================================================== *)

Lemma turn_eta (t : Turn) :
  {| app := app t; accumulated := accumulated t |} = t.
Proof. destruct t; reflexivity. Qed.

Section PageFacts.

Variable dstate : Type.
Variable decode_byte : dstate -> byte -> dstate * jsstring.
Variable decoder_init : dstate.
Variable JSON_parse : jsstring -> ParseResult.
Variable null_property_message : jsstring.

Local Abbreviation for_parts :=
  (Client.for_parts JSON_parse null_property_message).
Local Abbreviation read_loop :=
  (Client.read_loop decode_byte JSON_parse null_property_message).
Local Abbreviation streamModel :=
  (Client.streamModel decode_byte decoder_init JSON_parse
     null_property_message).
Local Abbreviation resume :=
  (Page.resume decode_byte decoder_init JSON_parse null_property_message).
Local Abbreviation settle :=
  (Page.settle decode_byte decoder_init JSON_parse null_property_message).
Local Abbreviation click :=
  (Page.click decode_byte decoder_init JSON_parse null_property_message).
Local Abbreviation page_step :=
  (Page.step decode_byte decoder_init JSON_parse null_property_message).
Local Abbreviation page_run :=
  (Page.run decode_byte decoder_init JSON_parse null_property_message).
Local Abbreviation chat_only_turn_only :=
  (chat_only_turn_only dstate decode_byte decoder_init JSON_parse
     null_property_message).

(** *** One handler at a time *)

(** The reads of a stream, settled one after another with nothing in
    between, are the [while] loop of [streamModel]. *)
Lemma settle_reads (caller : Page.Caller) (reads : list ReadResult)
  (d : dstate) (buffer acc : jsstring) (st : AppState) (fuel : nat) :
  length reads < fuel ->
  settle fuel (Page.StreamRead caller reads d buffer acc) st
  = Page.stream_return caller
      (stream_finally
         (stream_catch
            (read_loop reads d buffer {| app := st; accumulated := acc |}))).
Proof.
  revert d buffer acc st fuel.
  induction reads as [|r reads IH]; intros d buffer acc st fuel L;
    (destruct fuel as [|fuel]; [simpl in L; lia|]).
  - reflexivity.
  - destruct r as [value| |m]; try reflexivity.
    cbn [Page.settle Page.resume Page.stream_read].
    rewrite read_loop_chunk.
    destruct (Client.decode decode_byte d value) as [d' s]. cbn [fst snd].
    destruct (for_parts (removelast (split_blank (buffer ++ s)))
                {| app := st; accumulated := acc |}) as [t' [|m]].
    + rewrite IH by (simpl in L; lia). now rewrite turn_eta.
    + reflexivity.
Qed.

(** A [streamModel] whose promises settle one after another. *)
Lemma settle_stream (caller : Page.Caller) (sid : option jsstring)
  (resp : StreamResponse) (st : AppState) (fuel : nat) :
  Page.promises resp <= S fuel ->
  match Page.stream_start caller sid resp st with
  | (st1, Some h) => settle fuel h st1
  | (st1, None) => st1
  end
  = Page.stream_return caller (streamModel sid resp st).
Proof.
  intros L. unfold Page.stream_start, Client.streamModel.
  destruct (falsy sid); [reflexivity|].
  destruct fuel as [|fuel]; [destruct resp; simpl in L; lia|].
  destruct resp as [m| |reads]; try reflexivity.
  cbn [Page.settle Page.resume Client.stream_try].
  rewrite settle_reads by (simpl in L; lia).
  reflexivity.
Qed.

(** [sendChatMessage] with no other event before its end is the handler
    run as a whole. *)
Lemma sendChatMessage_at_once (post : FetchJson unit)
  (resp : StreamResponse) (st : AppState) :
  match Page.sendChatMessage post resp st with
  | (st1, Some h) => settle (Page.promises resp) h st1
  | (st1, None) => st1
  end
  = Client.sendChatMessage decode_byte decoder_init JSON_parse
      null_property_message post resp st.
Proof.
  unfold Page.sendChatMessage, Client.sendChatMessage.
  destruct (negb (truthy (trim (chatInput st))) || falsy (sessionId st));
    [reflexivity|].
  destruct post as [m|u]; [destruct resp; reflexivity|].
  assert (E : Page.promises resp = S (Page.promises resp - 1))
    by (destruct resp; simpl; lia).
  rewrite E. cbn [Page.settle Page.resume].
  match goal with
  | |- context [Page.stream_start ?c ?sid resp ?s1] =>
      pose proof (settle_stream c sid resp s1 (Page.promises resp - 1)) as S
  end.
  destruct (Page.stream_start _ _ _ _) as [st1 [h|]];
    rewrite S by lia; reflexivity.
Qed.

(** [startSession] with no other event before its end. *)
Lemma startSession_at_once (post : FetchJson (option jsstring))
  (resp : StreamResponse) (st : AppState) :
  match Page.startSession post resp st with
  | (st1, Some h) => settle (Page.promises resp) h st1
  | (st1, None) => st1
  end
  = Client.startSession decode_byte decoder_init JSON_parse
      null_property_message post resp st.
Proof.
  unfold Page.startSession, Client.startSession.
  destruct (falsy_num (selectedRole st) || falsy_num (selectedScenario st));
    [reflexivity|].
  destruct post as [m|new_id]; [destruct resp; reflexivity|].
  assert (E : Page.promises resp = S (Page.promises resp - 1))
    by (destruct resp; simpl; lia).
  rewrite E. cbn [Page.settle Page.resume].
  match goal with
  | |- context [Page.stream_start ?c ?sid resp ?s1] =>
      pose proof (settle_stream c sid resp s1 (Page.promises resp - 1)) as S
  end.
  destruct (Page.stream_start _ _ _ _) as [st1 [h|]];
    rewrite S by lia; reflexivity.
Qed.

(** The submissions with no other event before their end. *)
Lemma submit_at_once (post : FetchJson jsstring) (st : AppState) :
  match Page.submitCode post st with
  | (st1, Some h) => settle 1 h st1
  | (st1, None) => st1
  end = Client.submitCode post st
  /\ match Page.submitSql post st with
     | (st1, Some h) => settle 1 h st1
     | (st1, None) => st1
     end = Client.submitSql post st.
Proof.
  unfold Page.submitCode, Page.submitSql, Client.submitCode, Client.submitSql.
  destruct (currentTask st); [|split; reflexivity].
  destruct (falsy (sessionId st)); [split; reflexivity|].
  destruct post; split; reflexivity.
Qed.

(** An operation of a session with no other event before the end of its
    handler is the operation of [Client.step]. *)
Lemma step_at_once (a : Action) (st : AppState) :
  view st = session ->
  match click (Page.InSession a) st with
  | (st1, Some h) =>
      settle (match a with
              | ClickSend _ resp => Page.promises resp
              | _ => 1
              end) h st1
  | (st1, None) => st1
  end
  = Client.step decode_byte decoder_init JSON_parse null_property_message
      a st.
Proof.
  intros V. cbn [Page.click]. unfold Ui.view_is. rewrite V.
  destruct a as [post resp|value| | |post|post]; try reflexivity;
    unfold Client.step.
  - destruct (send_disabled st); [reflexivity|].
    apply sendChatMessage_at_once.
  - destruct (currentTask st) as [[i [| |] p]|]; try reflexivity.
    destruct (falsy (sessionId st)); [reflexivity|].
    apply submit_at_once.
  - destruct (currentTask st) as [[i [| |] p]|]; try reflexivity.
    destruct (falsy (sessionId st)); [reflexivity|].
    apply submit_at_once.
Qed.

(** *** What an event of the page can change *)

Lemma dialogue_grows_refl (st : AppState) : dialogue_grows st st.
Proof.
  unfold dialogue_grows; repeat split. exists []; now rewrite app_nil_r.
Qed.

Lemma dialogue_grows_trans (a b c : AppState) :
  dialogue_grows a b -> dialogue_grows b c -> dialogue_grows a c.
Proof.
  intros (A1 & A2 & A3 & A4 & A5 & x & Ax) (B1 & B2 & B3 & B4 & B5 & y & By).
  unfold dialogue_grows. repeat split; try congruence.
  exists (x ++ y). rewrite By, Ax, app_assoc. reflexivity.
Qed.

Lemma turn_only_dialogue_grows (a b : AppState) :
  turn_only a b -> dialogue_grows a b.
Proof. unfold turn_only, dialogue_grows; tauto. Qed.

Lemma stream_return_grows (caller : Page.Caller) (st : AppState) :
  dialogue_grows st (Page.stream_return caller st).
Proof.
  destruct caller; unfold dialogue_grows; simpl; repeat split;
    exists []; now rewrite app_nil_r.
Qed.

Lemma stream_end_grows (caller : Page.Caller) (r : Turn * Completion) :
  dialogue_grows (app (fst r))
    (fst (Page.stream_end (dstate:=dstate) caller r)).
Proof.
  unfold Page.stream_end. cbn [fst].
  eapply dialogue_grows_trans; [|apply stream_return_grows].
  apply turn_only_dialogue_grows.
  eapply turn_only_trans; [|apply stream_finally_turn_only].
  apply chat_only_turn_only, stream_catch_chat_only.
Qed.

Lemma stream_start_grows (caller : Page.Caller) (sid : option jsstring)
  (resp : StreamResponse) (st : AppState) :
  dialogue_grows st
    (fst (Page.stream_start (dstate:=dstate) caller sid resp st)).
Proof.
  unfold Page.stream_start.
  destruct (falsy sid); cbn [fst]; [apply stream_return_grows|].
  apply turn_only_dialogue_grows, stream_begin_turn_only.
Qed.

Lemma stream_read_grows (caller : Page.Caller) (reads : list ReadResult)
  (d : dstate) (buffer acc : jsstring) (st : AppState) :
  dialogue_grows st
    (fst (Page.stream_read decode_byte JSON_parse null_property_message
            caller reads d buffer acc st)).
Proof.
  set (t := {| app := st; accumulated := acc |}).
  change st with (app t) at 1.
  unfold Page.stream_read. fold t.
  destruct reads as [|[value| |m] reads];
    try (apply (stream_end_grows caller (t, _))).
  destruct (Client.decode decode_byte d value) as [d' s].
  pose proof (for_parts_chat_only JSON_parse null_property_message
                (removelast (split_blank (buffer ++ s))) t) as H.
  destruct (for_parts (removelast (split_blank (buffer ++ s))) t)
    as [t' [|m]]; cbn [fst] in *.
  - apply turn_only_dialogue_grows, chat_only_turn_only, H.
  - eapply dialogue_grows_trans;
      [apply turn_only_dialogue_grows, chat_only_turn_only, H|].
    apply (stream_end_grows caller (t', Throw m)).
Qed.

(** A handler that goes on keeps the selection; it adds to the scenario
    list at most; it appends to the dialogue of the view shown, except for
    [startSession], which shows the session view with the greeting as its
    first message. *)
Lemma resume_cells (h : Page.Pending dstate) (st : AppState) :
  let st' := fst (resume h st) in
  selectedRole st' = selectedRole st
  /\ selectedScenario st' = selectedScenario st
  /\ (exists more, scenarios st' = scenarios st ++ more)
  /\ ((view st' = view st
       /\ exists added, messages st' = messages st ++ added)
      \/ (view st' = session
          /\ exists added, messages st' = greeting :: added)).
Proof.
  assert (G : forall st', dialogue_grows st st' ->
              selectedRole st' = selectedRole st
              /\ selectedScenario st' = selectedScenario st
              /\ (exists more, scenarios st' = scenarios st ++ more)
              /\ ((view st' = view st
                   /\ exists added, messages st' = messages st ++ added)
                  \/ (view st' = session
                      /\ exists added, messages st' = greeting :: added))).
  { intros st' (V & Sc & R & Se & _ & M). repeat split; try assumption.
    - exists []. now rewrite app_nil_r.
    - left. auto. }
  destruct h as [sid post resp|sid post resp|caller resp
                |caller reads d buffer acc|post|post|post|post];
    cbn [Page.resume]; cbv zeta.
  - destruct post as [m|u].
    + apply G. unfold dialogue_grows. simpl. repeat split.
      eexists; reflexivity.
    + apply G, stream_start_grows.
  - destruct post as [m|new_id].
    + apply G. unfold dialogue_grows. simpl. repeat split.
      exists []. now rewrite app_nil_r.
    + match goal with
      | |- context [Page.stream_start ?c sid resp ?s1] =>
          destruct (stream_start_grows c sid resp s1)
            as (V & Sc & R & Se & _ & added & M)
      end.
      rewrite R, Se, Sc, V, M. simpl. repeat split.
      * exists []. now rewrite app_nil_r.
      * right. split; [reflexivity|]. now exists added.
  - destruct resp as [m| |reads].
    + apply G.
      exact (stream_end_grows caller
               ({| app := st; accumulated := [] |}, Throw m)).
    + apply G.
      exact (stream_end_grows caller
               ({| app := st; accumulated := [] |}, Throw no_body_message)).
    + apply G, dialogue_grows_refl.
  - apply G, stream_read_grows.
  - apply G. unfold dialogue_grows. simpl. repeat split.
    exists []. now rewrite app_nil_r.
  - apply G. unfold dialogue_grows. simpl. repeat split.
    exists []. now rewrite app_nil_r.
  - apply G. unfold dialogue_grows, Ui.submitRole.
    destruct post; simpl; repeat split; exists []; now rewrite app_nil_r.
  - unfold Ui.submitScenario. destruct post as [m|s]; simpl.
    + apply G, dialogue_grows_refl.
    + repeat split.
      * now exists [s].
      * left. split; [reflexivity|]. exists []. now rewrite app_nil_r.
Qed.

(** What a control changes up to the first [await] of its handler: the
    admin toggle the view, a card the selection, every other control the
    dialogue at most, by appending to it. *)
Lemma click_cells (c : Page.Control) (st : AppState) :
  let st' := fst (click c st) in
  match c with
  | Page.ToggleAdmin => st' = Ui.toggleAdmin st
  | Page.ClickRole role => st' = st \/ st' = Ui.clickRole role st
  | Page.ClickScenario card =>
      st' = st
      \/ (Ui.cardOnScreen card st = true
          /\ st' = setSelectedScenario (Some card) st)
  | _ => dialogue_grows st st'
  end.
Proof.
  pose proof (dialogue_grows_refl st) as R.
  destruct c as [a|post resp| |role|card|post|parse_error post];
    cbn [Page.click]; cbv zeta.
  - destruct (Ui.view_is session st); [|exact R].
    destruct a as [post resp|value| | |post|post].
    + destruct (send_disabled st); [exact R|].
      unfold Page.sendChatMessage.
      destruct (negb (truthy (trim (chatInput st))) || falsy (sessionId st));
        [exact R|].
      unfold dialogue_grows. simpl. repeat split. eexists; reflexivity.
    + exact R.
    + cbn [fst]. unfold Client.step.
      destruct (_ >=? _)%Z; [exact R|]. unfold goNextTask.
      destruct (_ <? _)%Z; exact R.
    + cbn [fst]. unfold Client.step.
      destruct (_ =? _)%Z; [exact R|]. unfold goPrevTask.
      destruct (_ >? _)%Z; exact R.
    + destruct (currentTask st) as [[i [| |] p]|] eqn:E; try exact R.
      destruct (falsy (sessionId st)) eqn:F; [exact R|].
      unfold Page.submitCode. rewrite E, F. exact R.
    + destruct (currentTask st) as [[i [| |] p]|] eqn:E; try exact R.
      destruct (falsy (sessionId st)) eqn:F; [exact R|].
      unfold Page.submitSql. rewrite E, F. exact R.
  - destruct (Ui.view_is admin st || loading st); [exact R|].
    unfold Page.startSession.
    destruct (falsy_num (selectedRole st) || falsy_num (selectedScenario st));
      [|exact R].
    unfold dialogue_grows. simpl. repeat split.
    exists []. now rewrite app_nil_r.
  - reflexivity.
  - destruct (Ui.view_is landing st); auto.
  - destruct (Ui.view_is landing st); [|auto].
    unfold Ui.clickScenario.
    destruct (Ui.cardOnScreen card st); auto.
  - destruct (Ui.view_is admin st); exact R.
  - destruct (Ui.view_is admin st); [|exact R].
    unfold Page.submitScenario. destruct parse_error; [|exact R].
    unfold dialogue_grows. simpl. repeat split.
    exists []. now rewrite app_nil_r.
Qed.

Lemma effect_greeted (st : AppState) :
  greeted st -> greeted (Ui.roleScenarioEffect st).
Proof.
  intros H V. destruct (effect_cells st) as (Ev & _ & _ & Em & _).
  rewrite Em. apply H. now rewrite <- Ev.
Qed.

Lemma grows_greeted (st st' : AppState) :
  dialogue_grows st st' -> greeted st -> greeted st'.
Proof.
  intros (V & _ & _ & _ & _ & added & M) H W. rewrite V in W.
  destruct (H W) as [rest E].
  exists (rest ++ added). rewrite M, E. reflexivity.
Qed.

Lemma page_step_greeted (e : Page.Event) (p : Page.Page dstate) :
  greeted (Page.cells p) -> greeted (Page.cells (page_step e p)).
Proof.
  intros H. destruct e as [c|k]; unfold Page.step.
  - pose proof (click_cells c (Page.cells p)) as C. cbv zeta in C.
    destruct (click c (Page.cells p)) as [st started]. cbn [fst] in C.
    cbn [Page.cells]. apply effect_greeted.
    destruct c as [a|post resp| |role|card|post|parse_error post];
      try (now apply (grows_greeted (Page.cells p))).
    + subst st. intros W. unfold Ui.toggleAdmin in W. simpl in W.
      destruct (view (Page.cells p)); discriminate.
    + destruct C as [->| ->]; [exact H|]. exact H.
    + destruct C as [->|[_ ->]]; exact H.
  - destruct (nth_error (Page.pending p) k) as [h|]; [|exact H].
    pose proof (resume_cells h (Page.cells p)) as C. cbv zeta in C.
    destruct (resume h (Page.cells p)) as [st next]. cbn [fst] in C.
    cbn [Page.cells]. apply effect_greeted.
    destruct C as (_ & _ & _ & [(V & added & M)|(V & added & M)]); intros W.
    + rewrite V in W. destruct (H W) as [rest E].
      exists (rest ++ added). rewrite M, E. reflexivity.
    + now exists added.
Qed.

Lemma page_run_greeted (events : list Page.Event) (p : Page.Page dstate) :
  greeted (Page.cells p) -> greeted (Page.cells (page_run events p)).
Proof.
  revert p; induction events as [|e events IH]; intros p H; [exact H|].
  unfold Page.run in *. simpl. apply IH, page_step_greeted, H.
Qed.

(** X17: the dialogue of the session view always opens with the greeting.
    From a page that shows the landing view, whatever handlers are under
    way, after any events in any order, whenever the session view is shown
    the first message is the system greeting of [startSession]. *)
Theorem session_view_dialogue_opens_with_greeting
  (events : list Page.Event) (p0 : Page.Page dstate) :
  view (Page.cells p0) = landing ->
  let st := Page.cells (page_run events p0) in
  view st = session ->
  exists rest, messages st = greeting :: rest.
Proof.
  intros H0 st V.
  apply (page_run_greeted events p0); [|exact V].
  intros C. rewrite H0 in C. discriminate.
Qed.

(** *** The dialogue of a session under overlapping handlers *)

Lemma forallb_firstn_skipn {A : Type} (f : A -> bool) (k : nat)
  (l : list A) :
  forallb f l = true ->
  forallb f (firstn k l) = true /\ forallb f (skipn k l) = true.
Proof.
  intros H. rewrite <- (firstn_skipn k l), forallb_app in H.
  now apply andb_true_iff in H.
Qed.

Lemma effect_dialogue (st : AppState) :
  sessionId (Ui.roleScenarioEffect st) = sessionId st
  /\ messages (Ui.roleScenarioEffect st) = messages st.
Proof.
  unfold Ui.roleScenarioEffect.
  destruct (negb (falsy_num (selectedRole st))
            && falsy_num (selectedScenario st)); [|auto].
  destruct (selectedRole st) as [r|]; [|auto].
  destruct (find _ _); auto.
Qed.

(** A handler of the session that goes on stays in the session and appends
    to its dialogue. *)
Lemma resume_within_session (h : Page.Pending dstate) (st : AppState) :
  Page.within_session h = true ->
  sessionId (fst (resume h st)) = sessionId st
  /\ (exists added, messages (fst (resume h st)) = messages st ++ added)
  /\ forallb (@Page.within_session dstate) (Page.to_list (snd (resume h st)))
     = true.
Proof.
  assert (G : forall st', dialogue_grows st st' ->
              sessionId st' = sessionId st
              /\ exists added, messages st' = messages st ++ added).
  { intros st' (_ & _ & _ & _ & S & M). auto. }
  intros W.
  destruct h as [sid post resp|sid post resp|caller resp
                |caller reads d buffer acc|post|post|post|post];
    try discriminate W; cbn [Page.resume]; cbv zeta.
  - destruct post as [m|u].
    + simpl. repeat split. eexists; reflexivity.
    + pose proof (stream_start_grows Page.BySendChatMessage sid resp st) as D.
      unfold Page.stream_start in *.
      destruct (falsy sid); cbn [fst snd] in *;
        (split; [apply G, D|]; split; [apply G, D | reflexivity]).
  - destruct resp as [m| |reads]; cbn [fst snd Page.stream_end].
    + pose proof (stream_end_grows caller
                    ({| app := st; accumulated := [] |}, Throw m)) as D.
      split; [apply G, D|]. split; [apply G, D | reflexivity].
    + pose proof (stream_end_grows caller
                    ({| app := st; accumulated := [] |},
                     Throw no_body_message)) as D.
      split; [apply G, D|]. split; [apply G, D | reflexivity].
    + repeat split. exists []. now rewrite app_nil_r.
  - pose proof (stream_read_grows caller reads d buffer acc st) as D.
    split; [apply G, D|]. split; [apply G, D|].
    unfold Page.stream_read.
    destruct reads as [|[value| |m] reads]; try reflexivity.
    destruct (Client.decode decode_byte d value) as [d' s].
    destruct (for_parts _ _) as [t' [|m]]; reflexivity.
  - simpl. repeat split. exists []. now rewrite app_nil_r.
  - simpl. repeat split. exists []. now rewrite app_nil_r.
  - unfold Ui.submitRole. destruct post; simpl; repeat split;
      exists []; now rewrite app_nil_r.
  - unfold Ui.submitScenario. destruct post; simpl; repeat split;
      exists []; now rewrite app_nil_r.
Qed.

(** A control other than a start button stays in the session and appends to
    its dialogue. *)
Lemma click_within_session (c : Page.Control) (st : AppState) :
  Page.opens_session (Page.Click c) = false ->
  sessionId (fst (click c st)) = sessionId st
  /\ (exists added, messages (fst (click c st)) = messages st ++ added)
  /\ forallb (@Page.within_session dstate) (Page.to_list (snd (click c st)))
     = true.
Proof.
  intros W.
  assert (R : sessionId st = sessionId st
              /\ (exists added, messages st = messages st ++ added)
              /\ forallb (@Page.within_session dstate) [] = true).
  { repeat split. exists []. now rewrite app_nil_r. }
  destruct c as [a|post resp| |role|card|post|parse_error post];
    try discriminate W; cbn [Page.click]; cbv zeta.
  - destruct (Ui.view_is session st); [|exact R].
    destruct a as [post resp|value| | |post|post].
    + destruct (send_disabled st); [exact R|].
      unfold Page.sendChatMessage.
      destruct (negb (truthy (trim (chatInput st))) || falsy (sessionId st));
        [exact R|].
      simpl. repeat split. eexists; reflexivity.
    + exact R.
    + cbn [fst snd]. unfold Client.step.
      destruct (_ >=? _)%Z; [exact R|]. unfold goNextTask.
      destruct (_ <? _)%Z; exact R.
    + cbn [fst snd]. unfold Client.step.
      destruct (_ =? _)%Z; [exact R|]. unfold goPrevTask.
      destruct (_ >? _)%Z; exact R.
    + destruct (currentTask st) as [[i [| |] p]|] eqn:E; try exact R.
      destruct (falsy (sessionId st)) eqn:F; [exact R|].
      unfold Page.submitCode. rewrite E, F. exact R.
    + destruct (currentTask st) as [[i [| |] p]|] eqn:E; try exact R.
      destruct (falsy (sessionId st)) eqn:F; [exact R|].
      unfold Page.submitSql. rewrite E, F. exact R.
  - exact R.
  - destruct (Ui.view_is landing st); exact R.
  - destruct (Ui.view_is landing st); [|exact R].
    unfold Ui.clickScenario. destruct (Ui.cardOnScreen card st); exact R.
  - destruct (Ui.view_is admin st); exact R.
  - destruct (Ui.view_is admin st); [|exact R].
    unfold Page.submitScenario. destruct parse_error; exact R.
Qed.

Lemma page_step_within_session (e : Page.Event) (p : Page.Page dstate) :
  Page.opens_session e = false ->
  forallb (@Page.within_session dstate) (Page.pending p) = true ->
  sessionId (Page.cells (page_step e p)) = sessionId (Page.cells p)
  /\ (exists added,
        messages (Page.cells (page_step e p))
        = messages (Page.cells p) ++ added)
  /\ forallb (@Page.within_session dstate) (Page.pending (page_step e p))
     = true.
Proof.
  intros W H.
  assert (R : sessionId (Page.cells p) = sessionId (Page.cells p)
              /\ (exists added,
                    messages (Page.cells p) = messages (Page.cells p) ++ added)
              /\ forallb (@Page.within_session dstate) (Page.pending p)
                 = true).
  { repeat split; [|exact H]. exists []. now rewrite app_nil_r. }
  destruct e as [c|k]; unfold Page.step.
  - pose proof (click_within_session c (Page.cells p) W) as C.
    destruct (click c (Page.cells p)) as [st started].
    cbn [fst snd Page.cells Page.pending] in *.
    destruct (effect_dialogue st) as [Es Em]. rewrite Es, Em.
    destruct C as (Hs & M & F). split; [exact Hs|]. split; [exact M|].
    rewrite forallb_app, H, F. reflexivity.
  - destruct (nth_error (Page.pending p) k) as [h|] eqn:N; [|exact R].
    assert (Wh : Page.within_session h = true).
    { apply nth_error_In in N.
      exact (proj1 (forallb_forall _ _) H h N). }
    pose proof (resume_within_session h (Page.cells p) Wh) as C.
    destruct (resume h (Page.cells p)) as [st next].
    cbn [fst snd Page.cells Page.pending] in *.
    destruct (effect_dialogue st) as [Es Em]. rewrite Es, Em.
    destruct C as (Hs & M & F). split; [exact Hs|]. split; [exact M|].
    destruct (forallb_firstn_skipn (@Page.within_session dstate) k _ H)
      as [F1 _].
    destruct (forallb_firstn_skipn (@Page.within_session dstate) (S k) _ H)
      as [_ F2].
    rewrite !forallb_app, F1, F, F2. reflexivity.
Qed.

(** The dialogue of a session is append-only under overlapping handlers as
    well: while no [startSession] is under way and none is started, every
    event of the page, in any order, keeps the session and appends to its
    dialogue. *)
Lemma dialogue_append_only_overlapping (events : list Page.Event)
  (p : Page.Page dstate) :
  existsb Page.opens_session events = false ->
  forallb (@Page.within_session dstate) (Page.pending p) = true ->
  sessionId (Page.cells (page_run events p)) = sessionId (Page.cells p)
  /\ exists added,
       messages (Page.cells (page_run events p))
       = messages (Page.cells p) ++ added.
Proof.
  revert p. induction events as [|e events IH]; intros p E H.
  - split; [reflexivity|]. exists []. simpl. now rewrite app_nil_r.
  - simpl in E. apply orb_false_iff in E. destruct E as [E1 E2].
    destruct (page_step_within_session e p E1 H) as (Hs & [x Mx] & F).
    destruct (IH (page_step e p) E2 F) as (Hs' & [y My]).
    unfold Page.run in *. simpl. split; [congruence|].
    exists (x ++ y). rewrite My, Mx, app_assoc. reflexivity.
Qed.

(** *** The selection *)

Lemma distinct_app (l more : list Z) :
  Ui.distinct (l ++ more) = true -> Ui.distinct l = true.
Proof.
  induction l as [|x l IH]; [reflexivity|]. simpl.
  rewrite !andb_true_iff, !negb_true_iff, existsb_app, orb_false_iff.
  intros [[E _] D]. auto.
Qed.

Lemma selection_consistent_more (st st' : AppState) (more : list Scenario) :
  scenarios st' = scenarios st ++ more ->
  selectedRole st' = selectedRole st ->
  selectedScenario st' = selectedScenario st ->
  selection_consistent st -> selection_consistent st'.
Proof.
  intros Sc R Se H r sel Hr Hn Hs. rewrite R in Hr. rewrite Se in Hs.
  destruct (H r sel Hr Hn Hs) as (s & I & P).
  exists s. rewrite Sc, in_app_iff. auto.
Qed.

Lemma effect_selection_ok (st : AppState) :
  selection_ok st -> selection_ok (Ui.roleScenarioEffect st).
Proof.
  intros H D. destruct (effect_cells st) as (_ & Sc & _).
  rewrite Sc in D. apply effect_selection_consistent, H, D.
Qed.

Lemma click_selection_ok (c : Page.Control) (st : AppState) :
  selection_ok st -> selection_ok (fst (click c st)).
Proof.
  intros H. pose proof (click_cells c st) as C. cbv zeta in C.
  destruct c as [a|post resp| |role|card|post|parse_error post];
    try (destruct C as (_ & Sc & R & Se & _); intros D; rewrite Sc in D;
         apply (selection_consistent_ext st _ Sc R Se), H, D).
  - rewrite C. exact H.
  - destruct C as [->| ->]; [exact H|].
    intros _ r sel _ _ Hs. discriminate Hs.
  - destruct C as [->|[On ->]]; [exact H|].
    intros D r sel Hr Hn Hs. simpl in D, Hr, Hs. injection Hs as <-.
    unfold Ui.cardOnScreen in On. rewrite D in On.
    apply existsb_exists in On. destruct On as (s & Si & Sid).
    apply Z.eqb_eq in Sid.
    unfold Ui.shownScenarios in Si. apply filter_In in Si.
    destruct Si as [Si Sf]. rewrite Hr in Sf. simpl in Sf.
    destruct (Z.eqb_spec r 0) as [Z0|_]; [contradiction|].
    simpl in Sf. apply Z.eqb_eq in Sf.
    exists s. simpl. auto.
Qed.

Lemma resume_selection_ok (h : Page.Pending dstate) (st : AppState) :
  selection_ok st -> selection_ok (fst (resume h st)).
Proof.
  intros H D.
  destruct (resume_cells h st) as (R & Se & (more & Sc) & _).
  rewrite Sc, map_app in D. apply distinct_app in D.
  apply (selection_consistent_more st _ more Sc R Se), H, D.
Qed.

Lemma page_step_selection_ok (e : Page.Event) (p : Page.Page dstate) :
  selection_ok (Page.cells p) -> selection_ok (Page.cells (page_step e p)).
Proof.
  intros H. destruct e as [c|k]; unfold Page.step.
  - pose proof (click_selection_ok c (Page.cells p) H) as C.
    destruct (click c (Page.cells p)) as [st started].
    apply effect_selection_ok, C.
  - destruct (nth_error (Page.pending p) k) as [h|]; [|exact H].
    pose proof (resume_selection_ok h (Page.cells p) H) as C.
    destruct (resume h (Page.cells p)) as [st next].
    apply effect_selection_ok, C.
Qed.

Lemma page_run_selection_ok (events : list Page.Event)
  (p : Page.Page dstate) :
  selection_ok (Page.cells p) ->
  selection_ok (Page.cells (page_run events p)).
Proof.
  revert p; induction events as [|e events IH]; intros p H; [exact H|].
  unfold Page.run in *. simpl. apply IH, page_step_selection_ok, H.
Qed.

(** X18: while the scenario identifiers are distinct, the selected scenario
    belongs to the selected role.  From a page on which no role is selected,
    whatever handlers are under way, after any events in any order: when
    the identifiers of the scenario list are distinct and a role and a
    scenario are selected, the scenario is the identifier of a scenario of
    the list whose role is the selected one. *)
Theorem selected_scenario_of_selected_role (events : list Page.Event)
  (p0 : Page.Page dstate) (r sel : Z) :
  selectedRole (Page.cells p0) = None ->
  let st := Page.cells (page_run events p0) in
  Ui.distinct (map scenario_id (scenarios st)) = true ->
  selectedRole st = Some r -> r <> 0%Z ->
  selectedScenario st = Some sel ->
  exists s, In s (scenarios st) /\ scenario_id s = sel /\ role_id s = r.
Proof.
  intros H0 st D.
  apply (page_run_selection_ok events p0); [|exact D].
  intros _ r' sel' Hr. rewrite H0 in Hr. discriminate.
Qed.

End PageFacts.

(** *** The same on the sample platform *)


(** The last frame of this stream is a complete [done] line, but the stream
    closes before its blank line: the reply is the text of the tokens. *)
Lemma streamModel_drops_unterminated_frame_witness :
  let frames := [Sample.frame_hi; Sample.frame_there] in
  let chunks := [Sample.encode (sse_text frames ++ Sample.frame_done)] in
  Sample.streamModel (Some (lit "s1")) (Body (map Chunk chunks ++ [Done]))
    (Sample.idle false)
  = stream_finally
      (stream_catch
         (Client.for_parts Sample.JSON_parse Sample.null_property_message
            frames (stream_begin (Sample.idle false))))
  /\ messages
       (Sample.streamModel (Some (lit "s1"))
          (Body (map Chunk chunks ++ [Done])) (Sample.idle false))
     = [model_message (lit "Hi there")]
  /\ Sample.streamModel (Some (lit "s1")) (Body (map Chunk chunks))
       (Sample.idle false)
     = Sample.streamModel (Some (lit "s1"))
         (Body (map Chunk chunks ++ [Done])) (Sample.idle false).
Proof.
  intros frames chunks.
  destruct (streamModel_drops_unterminated_frame unit Sample.decode_byte tt
              Sample.JSON_parse Sample.null_property_message
              (Some (lit "s1")) (Sample.idle false) chunks []
              frames Sample.frame_done) as [A B];
    try (vm_compute; reflexivity).
  split; [exact A|]. split; [vm_compute; reflexivity | exact B].
Defined.

Lemma streamModel_cannot_open_witness :
  messages
    (Sample.streamModel (Some (lit "s1")) (FetchRejects (lit "Failed to fetch"))
       (Sample.idle false))
  = [failure_message (lit "Failed to fetch")]
  /\ messages (Sample.streamModel (Some (lit "s1")) NoBody (Sample.idle false))
     = [failure_message no_body_message].
Proof.
  destruct (streamModel_cannot_open unit Sample.decode_byte tt
              Sample.JSON_parse Sample.null_property_message
              (Some (lit "s1")) (lit "Failed to fetch") (Sample.idle false)
              eq_refl) as (A & B & _).
  split; [exact A | exact B].
Defined.

Lemma streamModel_malformed_frame_witness :
  let later := [Sample.frame_there; Sample.frame_done] in
  let chunks :=
    [Sample.encode
       (sse_text ([Sample.frame_hi] ++ Sample.frame_broken :: later))] in
  let st' :=
    Sample.streamModel (Some (lit "s1")) (Body (map Chunk chunks ++ [Done]))
      (Sample.idle false) in
  messages st'
  = [failure_message (lit "Unexpected token"); model_message (lit "Hi")]
  /\ streaming st' = false.
Proof.
  intros later chunks.
  apply (streamModel_malformed_frame unit Sample.decode_byte tt
           Sample.JSON_parse Sample.null_property_message
           (Some (lit "s1")) (Sample.idle false) chunks [Done]
           [Sample.frame_hi] later Sample.frame_broken
           (lit "Unexpected token")
           [ {| ev_type := Some (lit "token"); content := Some (lit "Hi");
                detail := None |} ]);
    try (vm_compute; reflexivity).
  - repeat constructor.
  - exists (lit "{oops"). split; [vm_compute; reflexivity|].
    left. vm_compute. reflexivity.
Defined.

Lemma streamModel_token_text_witness :
  let frames :=
    [Sample.frame_hi; Sample.frame_there; Sample.frame_done_empty] in
  messages
    (Sample.streamModel (Some (lit "s1"))
       (Body (map Chunk [Sample.encode (sse_text frames)] ++ [Done]))
       (Sample.idle false))
  = [model_message (lit "Hi there")].
Proof.
  intros frames.
  apply (streamModel_token_text unit Sample.decode_byte tt
           Sample.JSON_parse Sample.null_property_message
           (Some (lit "s1")) (Sample.idle false)
           [Sample.encode (sse_text frames)] [] frames
           [ {| ev_type := Some (lit "token"); content := Some (lit "Hi");
                detail := None |};
             {| ev_type := Some (lit "token");
                content := Some (lit " there"); detail := None |} ]
           [ {| ev_type := Some (lit "done"); content := Some [];
                detail := None |} ]);
    try (vm_compute; reflexivity); repeat constructor.
Defined.

Lemma streamModel_error_event_witness :
  let frames := [Sample.frame_hi; Sample.frame_error] in
  messages
    (Sample.streamModel (Some (lit "s1"))
       (Body (map Chunk [Sample.encode (sse_text frames)] ++ [Done]))
       (Sample.idle false))
  = [ {| sender := system; text := model_error_prefix ++ lit "boom";
         task_id := None |};
      model_message (lit "Hi") ].
Proof.
  intros frames.
  apply (streamModel_error_event unit Sample.decode_byte tt
           Sample.JSON_parse Sample.null_property_message
           (Some (lit "s1")) (Sample.idle false)
           [Sample.encode (sse_text frames)] frames
           [ {| ev_type := Some (lit "token"); content := Some (lit "Hi");
                detail := None |} ]
           {| ev_type := Some (lit "error"); content := None;
              detail := Some (lit "boom") |});
    try (vm_compute; reflexivity); repeat constructor.
Defined.

Lemma handle_part_ignores_padding_witness :
  let t := {| app := Sample.idle true; accumulated := [] |} in
  Client.handle_part Sample.JSON_parse Sample.null_property_message
    ([LF] ++ Sample.frame_hi ++ [13; 32]%N) t
  = Client.handle_part Sample.JSON_parse Sample.null_property_message
      Sample.frame_hi t.
Proof.
  intros t.
  apply (handle_part_ignores_padding Sample.JSON_parse
           Sample.null_property_message); reflexivity.
Defined.

Lemma sendChatMessage_blank_witness :
  let st := setChatInput (lit "   ") (Sample.idle false) in
  Sample.sendChatMessage (Resolves tt)
    (Body (map Chunk Sample.turn_chunks ++ [Done])) st = st.
Proof.
  intros st.
  apply (sendChatMessage_blank unit Sample.decode_byte tt Sample.JSON_parse
           Sample.null_property_message).
  left. reflexivity.
Defined.


(** The page with the first scenario selected, at the second of its three
    tasks. *)
Lemma goNextTask_goPrevTask_inverse_witness :
  let st :=
    setCurrentTaskIndex (fun _ => 1%Z)
      (setSelectedScenario (Some 101%Z) Sample.mounted) in
  goPrevTask (goNextTask st) = st /\ goNextTask (goPrevTask st) = st.
Proof.
  intros st. destruct (goNextTask_goPrevTask_inverse st) as [A B].
  split; [apply A | apply B]; vm_compute; split; congruence.
Defined.

Lemma navigation_saturates_witness :
  let st := setSelectedScenario (Some 101%Z) Sample.mounted in
  currentTaskIndex (Nat.iter 5 goNextTask st) = 2%Z
  /\ currentTaskIndex (Nat.iter 5 goPrevTask (Nat.iter 5 goNextTask st))
     = 0%Z.
Proof.
  intros st. split; [|reflexivity].
  assert (B : index_in_bounds st) by (vm_compute; split; congruence).
  destruct (navigation_saturates 5 st B) as (_ & _ & C).
  apply C. vm_compute. lia.
Defined.

(** A second start, from a page that has a session: the turn is read. *)
Lemma startSession_opens_session_witness :
  let resp := Body (map Chunk Sample.turn_chunks ++ [Done]) in
  let st := setMessages (fun _ => [model_message (lit "before")])
              (Sample.idle false) in
  let st' := Sample.startSession (Resolves (Some (lit "s2"))) resp st in
  sessionId st' = Some (lit "s2") /\ view st' = session
  /\ messages st' = [greeting; model_message (lit "Hi there")].
Proof.
  intros resp st st'.
  destruct (startSession_opens_session unit Sample.decode_byte tt
              Sample.JSON_parse Sample.null_property_message
              (Some (lit "s2")) resp st eq_refl eq_refl)
    as (A & B & _ & _ & _ & added & M & T).
  split; [exact A|]. split; [exact B|].
  unfold st', Sample.startSession. rewrite M. f_equal.
  specialize (T (Sample.idle false)).
  vm_compute in T. rewrite <- T. reflexivity.
Defined.

(** The first start, from the landing page with a role and a scenario. *)
Lemma startSession_first_turn_not_read_witness :
  let st :=
    setSelectedScenario (Some 101%Z)
      (setSelectedRole (Some 1%Z) Sample.mounted) in
  let resp := Body (map Chunk Sample.turn_chunks ++ [Done]) in
  messages (Sample.startSession (Resolves (Some (lit "s1"))) resp st)
  = [greeting]
  /\ streaming (Sample.startSession (Resolves (Some (lit "s1"))) resp st)
     = streaming st
  /\ Sample.startSession (Resolves (Some (lit "s1"))) resp st
     = Sample.startSession (Resolves (Some (lit "s1"))) NoBody st.
Proof.
  intros st resp.
  apply (startSession_first_turn_not_read unit Sample.decode_byte tt
           Sample.JSON_parse Sample.null_property_message); reflexivity.
Defined.

(** *** The page on the sample platform *)

(** C6: a second stream is started on the same session.  The send button
    is disabled while [streaming] is set, but [streaming] is set by
    [streamModel], after the POST of the message has resolved, and
    [streamModel] starts its stream whatever the flag says.  A second
    message sent before the POST of the first has resolved is accepted, and
    when both POSTs have resolved two streams are in flight on one session;
    their tokens go to the same reply, and the one that ends first clears
    the flag while the other is still read. *)
Theorem two_streams_in_flight :
  let p := Sample.page_run Sample.two_sends Sample.mounted_page in
  let q := Sample.page_run
             [Page.Settle 0; Page.Settle 1; Page.Settle 0; Page.Settle 1] p in
  let r := Sample.page_run [Page.Settle 1] q in
  (Page.streams_in_flight p = 2
   /\ sessionId (Page.cells p) = Some (lit "s1")
   /\ map text (messages (Page.cells p))
      = [session_created_text; lit "one"; lit "two"]
   /\ streaming (Page.cells p) = true)
  /\ (Page.streams_in_flight q = 2
      /\ streamingReply (Page.cells q) = lit "Hi<tool>")
  /\ (Page.streams_in_flight r = 1
      /\ streaming (Page.cells r) = false
      /\ send_disabled (Page.cells r) = false).
Proof. vm_compute. repeat split. Qed.

Lemma session_view_dialogue_opens_with_greeting_witness :
  let events :=
    Sample.two_sends
    ++ [ Page.Settle 0; Page.Settle 0; Page.Settle 0; Page.Settle 0;
         Page.Click (Page.ClickStart (Resolves (Some (lit "s2")))
                       Sample.turn_b);
         Page.Settle 0; Page.Settle 1 ] in
  exists rest,
    messages (Page.cells (Sample.page_run events Sample.mounted_page))
    = greeting :: rest.
Proof.
  intros events.
  apply (session_view_dialogue_opens_with_greeting unit Sample.decode_byte tt
           Sample.JSON_parse Sample.null_property_message events
           Sample.mounted_page); reflexivity.
Defined.

(** The candidate picks the second scenario of role 1, then role 2: the
    scenario selected in the end is the one of role 2. *)
Lemma selected_scenario_of_selected_role_witness :
  let events :=
    [ Page.Click (Page.ClickRole 1%Z); Page.Click (Page.ClickScenario 102%Z);
      Page.Click (Page.ClickRole 2%Z) ] in
  let st := Page.cells (Sample.page_run events Sample.mounted_page) in
  exists s, In s (scenarios st) /\ scenario_id s = 201%Z /\ role_id s = 2%Z.
Proof.
  intros events st.
  apply (selected_scenario_of_selected_role unit Sample.decode_byte tt
           Sample.JSON_parse Sample.null_property_message events
           Sample.mounted_page 2%Z 201%Z); try reflexivity.
  discriminate.
Defined.

(** With an identifier repeated in the list, a card of another role can be
    on screen: the selection then joins a role with a scenario that is not
    one of its own. *)
Lemma repeated_id_stale_card :
  let again := {| scenario_id := 101; role_id := 1; tasks := None |} in
  let events :=
    [ Page.Click Page.ToggleAdmin;
      Page.Click (Page.SubmitScenario None (Resolves again));
      Page.Settle 0;
      Page.Click Page.ToggleAdmin;
      Page.Click (Page.ClickRole 2%Z);
      Page.Click (Page.ClickScenario 101%Z) ] in
  let st := Page.cells (Sample.page_run events Sample.mounted_page) in
  selectedRole st = Some 2%Z /\ selectedScenario st = Some 101%Z
  /\ Forall (fun s => scenario_id s = 101%Z -> role_id s <> 2%Z)
       (scenarios st).
Proof.
  vm_compute. repeat split. repeat constructor; intros; discriminate.
Qed.

(** A scenario saved under the identifier of the scenario in use. *)
Lemma submitScenario_keeps_tasks_witness :
  let st := setSelectedScenario (Some 101%Z) Sample.mounted in
  let saved := {| scenario_id := 101; role_id := 2; tasks := None |} in
  orderedTasks (Ui.submitScenario (Resolves saved) st) = orderedTasks st
  /\ currentTask (Ui.submitScenario (Resolves saved) st) = currentTask st
  /\ scenarios (Ui.submitScenario (Resolves saved) st)
     = scenarios st ++ [saved].
Proof.
  intros st saved.
  apply (submitScenario_keeps_tasks saved st 101%Z
           {| scenario_id := 101; role_id := 1;
              tasks := Some [ {| id := lit "T1"; type := theory;
                                 max_points := Some 5%Z |};
                              {| id := lit "C1"; type := coding;
                                 max_points := Some 10%Z |};
                              {| id := lit "SQL1"; type := sql;
                                 max_points := Some 8%Z |} ] |});
    [reflexivity | left; reflexivity | reflexivity].
Defined.

(* ================================================================== *)
(** ** Facts about the backend core *)
(* ================================================================== *)

(** *** Score validation *)

Lemma validate_error (task : ScoreValidator.Task) (p : Z) :
  ScoreValidator.validate task p = inl InvalidScore
  <-> (p < 0 \/ p > ScoreValidator.max_points task)%Z.
Proof.
  unfold ScoreValidator.validate.
  destruct (Z.ltb_spec p 0) as [L|L]; simpl.
  - split; [left; exact L | reflexivity].
  - destruct (Z.gtb_spec p (ScoreValidator.max_points task)) as [G|G].
    + split; [right; lia | reflexivity].
    + split; [discriminate | lia].
Qed.

Lemma validate_accepts (task : ScoreValidator.Task) (p : Z) :
  (0 <= p <= ScoreValidator.max_points task)%Z ->
  ScoreValidator.validate task p = inr p.
Proof.
  intros H. unfold ScoreValidator.validate.
  destruct (Z.ltb_spec p 0) as [L|L]; [lia|].
  destruct (Z.gtb_spec p (ScoreValidator.max_points task)) as [G|G]; [lia|].
  reflexivity.
Qed.

Lemma validate_result (task : ScoreValidator.Task) (p q : Z) :
  ScoreValidator.validate task p = inr q ->
  q = p /\ (0 <= p <= ScoreValidator.max_points task)%Z.
Proof.
  unfold ScoreValidator.validate.
  destruct (Z.ltb_spec p 0) as [L|L]; simpl; [discriminate|].
  destruct (Z.gtb_spec p (ScoreValidator.max_points task)) as [G|G];
    [discriminate|].
  intros H; injection H as <-. lia.
Qed.

Lemma recordScores_in_range (s : ScoreValidator.Session)
  (reqs : list (ScoreValidator.Task * Z)) :
  Forall ScoreValidator.in_range (ScoreValidator.scores s) ->
  Forall ScoreValidator.in_range
    (ScoreValidator.scores (ScoreValidator.recordScores s reqs)).
Proof.
  revert s; induction reqs as [|[task p] reqs IH]; intros s H; [exact H|].
  simpl. unfold ScoreValidator.recordScore.
  destruct (ScoreValidator.validate task p) as [e|q] eqn:V; [now apply IH|].
  apply IH. simpl. apply Forall_app; split; [exact H|].
  constructor; [|constructor].
  destruct (validate_result task p q V) as [-> R]. exact R.
Qed.

(** C1: the Score Validator fails with [InvalidScore] exactly when the
    proposed points are below 0 or above the maximum of the task, and
    returns them unchanged otherwise; it accepts the maximum of the task and
    rejects the maximum plus one; every score that [recordScore] appends to
    a session lies between 0 and the maximum copied from its task. *)
Theorem validate_range (task : ScoreValidator.Task) (p : Z)
  (reqs : list (ScoreValidator.Task * Z)) :
  (ScoreValidator.validate task p = inl InvalidScore
   <-> (p < 0 \/ p > ScoreValidator.max_points task)%Z)
  /\ (~ (p < 0 \/ p > ScoreValidator.max_points task)%Z ->
      ScoreValidator.validate task p = inr p)
  /\ ((0 <= ScoreValidator.max_points task)%Z ->
      ScoreValidator.validate task (ScoreValidator.max_points task)
      = inr (ScoreValidator.max_points task))
  /\ ScoreValidator.validate task (ScoreValidator.max_points task + 1)
     = inl InvalidScore
  /\ Forall ScoreValidator.in_range
       (ScoreValidator.scores
          (ScoreValidator.recordScores
             {| ScoreValidator.scores := [] |} reqs)).
Proof.
  split; [apply validate_error|].
  split; [intros H; apply validate_accepts; lia|].
  split; [intros H; apply validate_accepts; lia|].
  split; [apply validate_error; lia|].
  apply recordScores_in_range. constructor.
Qed.

(** The scenario of the specification: a coding task of 10 points; a score
    of 12 is refused, a score of 10 is recorded as awarded. *)
Lemma validate_range_witness :
  let task := {| ScoreValidator.task_id := "C1"%string;
                 ScoreValidator.max_points := 10%Z |} in
  ScoreValidator.recordScore {| ScoreValidator.scores := [] |} task 12
  = inl InvalidScore
  /\ ScoreValidator.validate task 10 = inr 10%Z
  /\ ScoreValidator.validate task 11 = inl InvalidScore.
Proof.
  intros task.
  destruct (validate_range task 12 []) as (H1 & _ & H3 & H4 & _).
  split; [|split].
  - unfold ScoreValidator.recordScore.
    rewrite (proj2 H1 (or_intror eq_refl)). reflexivity.
  - apply H3. discriminate.
  - exact H4.
Defined.

(** *** The chained tool-call loop *)

Import StreamingConsumer.

Lemma tokens_not_tool_calls (tokens : list string) :
  filter is_tool_call (map token tokens) = [].
Proof. induction tokens as [|t tokens IH]; [reflexivity | exact IH]. Qed.

Lemma tokens_not_terminal (tokens : list string) :
  forallb (fun e => negb (is_terminal e)) (map token tokens) = true.
Proof. induction tokens as [|t tokens IH]; [reflexivity | exact IH]. Qed.

Lemma tool_calls_tokens (tokens : list string) (events : list TokenEvent) :
  tool_calls (map token tokens ++ events) = tool_calls events.
Proof.
  unfold tool_calls. now rewrite filter_app, tokens_not_tool_calls.
Qed.

(** A turn makes no more tool calls than its budget. *)
Lemma turn_tool_calls (complete : Dialogue -> Completion)
  (dispatch : string -> string -> string) (budget : nat)
  (dialogue : Dialogue) :
  tool_calls (turn complete dispatch budget dialogue) <= budget.
Proof.
  revert dialogue; induction budget as [|b IH]; intros dialogue; simpl;
    destruct (complete dialogue) as [tokens|tokens name arguments|tokens detail];
    rewrite tool_calls_tokens; try (cbv; lia).
  change (tool_calls (tool_call name arguments
                      :: turn complete dispatch b
                           (dialogue ++ [dispatch name arguments])))
    with (S (tool_calls (turn complete dispatch b
                           (dialogue ++ [dispatch name arguments])))).
  specialize (IH (dialogue ++ [dispatch name arguments])). lia.
Qed.

(** Every turn ends, and it ends with its one terminal event. *)
Lemma turn_ends (complete : Dialogue -> Completion)
  (dispatch : string -> string -> string) (budget : nat)
  (dialogue : Dialogue) :
  exists (events : list TokenEvent) (e : TokenEvent),
    turn complete dispatch budget dialogue = events ++ [e]
    /\ is_terminal e = true
    /\ forallb (fun x => negb (is_terminal x)) events = true.
Proof.
  revert dialogue; induction budget as [|b IH]; intros dialogue; simpl;
    destruct (complete dialogue) as [tokens|tokens name arguments|tokens detail].
  - exists (map token tokens), (done (String.concat "" tokens)).
    auto using tokens_not_terminal.
  - exists (map token tokens), (error cap_exceeded).
    auto using tokens_not_terminal.
  - exists (map token tokens), (error detail).
    auto using tokens_not_terminal.
  - exists (map token tokens), (done (String.concat "" tokens)).
    auto using tokens_not_terminal.
  - destruct (IH (dialogue ++ [dispatch name arguments]))
      as (events & e & E & T & N).
    exists (map token tokens ++ tool_call name arguments :: events), e.
    rewrite E, <- app_assoc. split; [reflexivity|]. split; [exact T|].
    rewrite forallb_app, tokens_not_terminal. simpl. exact N.
  - exists (map token tokens), (error detail).
    auto using tokens_not_terminal.
Qed.

(** Against a model that asks for a tool on every completion the turn makes
    as many tool calls as the budget allows and ends with an error. *)
Lemma turn_always_tool (complete : Dialogue -> Completion)
  (dispatch : string -> string -> string) (budget : nat)
  (dialogue : Dialogue) :
  (forall d, exists tokens name arguments,
     complete d = ToolCall tokens name arguments) ->
  exists events : list TokenEvent,
    turn complete dispatch budget dialogue = events ++ [error cap_exceeded]
    /\ tool_calls events = budget
    /\ forallb (fun x => negb (is_terminal x)) events = true.
Proof.
  intros H.
  revert dialogue; induction budget as [|b IH]; intros dialogue; simpl;
    destruct (H dialogue) as (tokens & name & arguments & E); rewrite E.
  - exists (map token tokens). split; [reflexivity|].
    split; [|apply tokens_not_terminal].
    rewrite <- (app_nil_r (map token tokens)). apply tool_calls_tokens.
  - destruct (IH (dialogue ++ [dispatch name arguments]))
      as (events & C & L & F).
    exists (map token tokens ++ tool_call name arguments :: events).
    rewrite C, <- app_assoc. split; [reflexivity|]. split.
    + rewrite tool_calls_tokens. unfold tool_calls in *. simpl. now rewrite L.
    + rewrite forallb_app, tokens_not_terminal. simpl. exact F.
Qed.

(** C7: the chained tool-call loop is bounded.  Whatever the model answers,
    a turn is a finite sequence of events that makes at most [cap] tool
    calls and ends with one [done] or [error] event; against a model that
    requests a tool on every completion it makes [cap] tool calls and then
    ends with an [error] event. *)
Theorem modelTurn_bounded (complete : Dialogue -> Completion)
  (dispatch : string -> string -> string) (cap : nat)
  (dialogue : Dialogue) :
  tool_calls (modelTurn complete dispatch cap dialogue) <= cap
  /\ (exists (events : list TokenEvent) (e : TokenEvent),
        modelTurn complete dispatch cap dialogue = events ++ [e]
        /\ is_terminal e = true
        /\ forallb (fun x => negb (is_terminal x)) events = true)
  /\ ((forall d, exists tokens name arguments,
         complete d = ToolCall tokens name arguments) ->
      exists events : list TokenEvent,
        modelTurn complete dispatch cap dialogue
        = events ++ [error cap_exceeded]
        /\ tool_calls events = cap
        /\ forallb (fun x => negb (is_terminal x)) events = true).
Proof.
  unfold modelTurn.
  split; [apply turn_tool_calls|].
  split; [apply turn_ends | apply turn_always_tool].
Qed.

(** A mock model that always requests a search, under a cap of 3. *)
Lemma modelTurn_bounded_witness :
  modelTurn (fun _ => ToolCall ["Let me look. "%string] "rag_search" "{}")
    (fun _ _ => "no result"%string) 3 ["hello"%string]
  = [ token "Let me look. "; tool_call "rag_search" "{}";
      token "Let me look. "; tool_call "rag_search" "{}";
      token "Let me look. "; tool_call "rag_search" "{}";
      token "Let me look. "; error cap_exceeded ]
  /\ exists events : list TokenEvent,
       modelTurn (fun _ => ToolCall ["Let me look. "%string] "rag_search" "{}")
         (fun _ _ => "no result"%string) 3 ["hello"%string]
       = events ++ [error cap_exceeded]
       /\ tool_calls events = 3
       /\ forallb (fun x => negb (is_terminal x)) events = true.
Proof.
  split; [reflexivity|].
  apply (modelTurn_bounded
           (fun _ => ToolCall ["Let me look. "%string] "rag_search" "{}")
           (fun _ _ => "no result"%string) 3 ["hello"%string]).
  intros d.
  now exists ["Let me look. "%string], "rag_search"%string, "{}"%string.
Defined.

(** A response with one embedded tool call followed by a plain answer gives
    one [tool_call] event and then one [done] event that carries the plain
    answer only. *)
Example one_tool_call_then_answer :
  modelTurn
    (fun d => match d with
              | [_] => ToolCall [] "rag_search" "{}"
              | _ => PlainText ["The "; "answer"]%string
              end)
    (fun _ _ => "result"%string) 3 ["question"%string]
  = [ tool_call "rag_search" "{}"; token "The "; token "answer";
      done "The answer" ].
Proof. reflexivity. Qed.

(** *** The retrieval index *)

Import RetrievalIndex.






Lemma frequency_nonneg (v : list string) (t : string) :
  (0 <= frequency v t)%Z.
Proof. unfold frequency. lia. Qed.













(** *** Ranking *)

















